(** * djangocms-helper: the command-line helper of [djangocms_helper/main.py]

    A shallow embedding of the helper's entry points ([main], [core]) and of
    its operation handlers, with the properties the design document states
    about them.

    The Python program is embedded as follows.
    - [str] values are [string]s, read as ASCII text; lists are [list]s;
      the dictionaries returned by [pyclbr] are [gmap]s keyed by name.
    - Statements run in the monad [M]: a state transformer over the process
      state that either returns a value or raises a Python exception.
      [sys.exit] raises [SystemExit], as in Python.
    - The process state carries the environment the program runs in (disk,
      working directory, [os.environ], [sys.path], and an opaque world owned
      by Django and the other libraries) and the trace of the effects the
      helper itself performs.
    - Django, docopt, pyclbr, pkgutil, xvfbwrapper, git and the helper's own
      [utils._make_settings] and [utils.load_from_file] are collected in the
      record [Externals]; they act on the environment, never on the trace. *)

From Stdlib Require Import ZArith String Ascii.
From stdpp Require Import list sorting strings pretty gmap.

Local Open Scope string_scope.
Local Open Scope list_scope.

(** ** Python built-ins used by the helper *)

Module Py.

(** [s.startswith(p)] *)
Definition startswith (s p : string) : bool := String.prefix p s.

(** [c.lower()] on an ASCII character. *)
Definition lower_char (c : ascii) : ascii :=
  let n := nat_of_ascii c in
  if (65 <=? n)%nat && (n <=? 90)%nat then ascii_of_nat (n + 32) else c.

(** [s.lower()] *)
Fixpoint lower (s : string) : string :=
  match s with
  | EmptyString => EmptyString
  | String c s' => String (lower_char c) (lower s')
  end.

(** [s.lstrip(chars)] *)
Fixpoint lstrip (chars : list ascii) (s : string) : string :=
  match s with
  | EmptyString => EmptyString
  | String c s' => if bool_decide (c ∈ chars) then lstrip chars s' else s
  end.

(** [s.rstrip(chars)] *)
Definition rstrip (chars : list ascii) (s : string) : string :=
  String.rev (lstrip chars (String.rev s)).

(** [s.strip(chars)] *)
Definition strip_chars (chars : list ascii) (s : string) : string :=
  rstrip chars (lstrip chars s).

(** The characters [s.strip()] removes from ASCII text. *)
Definition whitespace : list ascii :=
  ascii_of_nat <$> [9; 10; 11; 12; 13; 28; 29; 30; 31; 32]%nat.

(** [s.strip()] *)
Definition strip (s : string) : string := strip_chars whitespace s.

Definition newline : ascii := ascii_of_nat 10.

(** [f.readlines()]: the lines of the content, each with its terminator. *)
Fixpoint readlines_go (cur : string) (s : string) : list string :=
  match s with
  | EmptyString =>
      match cur with EmptyString => [] | _ => [String.rev cur] end
  | String c s' =>
      if Ascii.eqb c newline
      then String.rev (String c cur) :: readlines_go EmptyString s'
      else readlines_go (String c cur) s'
  end.
Definition readlines (content : string) : list string :=
  readlines_go EmptyString content.

(** [sep.join(l)] *)
Definition join (sep : string) (l : list string) : string :=
  String.concat sep l.

(** [sorted(l)] on a list of strings. *)
Definition sorted (l : list string) : list string :=
  merge_sort String.le l.

(** The order [sorted(l, key=key)] sorts by. *)
Definition key_le {A} (key : A → string) (x y : A) : Prop :=
  String.le (key x) (key y).

Global Instance key_le_dec {A} (key : A → string) : RelDecision (key_le key).
Proof. intros x y. unfold key_le. apply _. Defined.

(** Put [x] in front of the first element whose key is not below its
    own. *)
Fixpoint insert_by {A} (key : A → string) (x : A) (l : list A) : list A :=
  match l with
  | [] => [x]
  | y :: l' =>
      if decide (key_le key x y) then x :: l else y :: insert_by key x l'
  end.

(** [sorted(l, key=key)]: the sort is stable, elements with the same key
    stay in the order they came in. *)
Definition sorted_by {A} (key : A → string) (l : list A) : list A :=
  foldr (insert_by key) [] l.

(** Truth value of a list: [bool(l)]. *)
Definition truthy {A} (l : list A) : bool :=
  match l with [] => false | _ => true end.

End Py.

(** ** Exceptions and outcomes *)

(** The exceptions the helper raises, catches or lets through. *)
Inductive exn : Type :=
| IOError
| OSError
| ImportError
| AssertionError
| KeyboardInterrupt
| SystemExit (code : Z)
| DocoptExit (usage : string)
| OtherError (name : string).

(** [except IOError] *)
Definition is_IOError (e : exn) : bool :=
  match e with IOError => true | _ => false end.

(** [except ImportError] *)
Definition is_ImportError (e : exn) : bool :=
  match e with ImportError => true | _ => false end.

(** The result of running a statement or evaluating an expression. *)
Inductive outcome (A : Type) : Type :=
| Ret (a : A)
| Raise (e : exn).
Arguments Ret {A} a.
Arguments Raise {A} e.

(** ** Data of the program *)

(** A filesystem path, as its components. *)
Definition path : Type := list string.

(** [os.path.join] *)
Definition os_path_join (parts : list string) : path := parts.

(** The dictionary docopt builds from the command line. *)
Record Args : Type := {
  arg_application : string;          (* <application> *)
  arg_test : bool;                   (* test *)
  arg_shell : bool;                  (* shell *)
  arg_compilemessages : bool;        (* compilemessages *)
  arg_makemessages : bool;           (* makemessages *)
  arg_makemigrations : bool;         (* makemigrations *)
  arg_pyflakes : bool;               (* pyflakes *)
  arg_authors : bool;                (* authors *)
  arg_failfast : bool;               (* --failfast *)
  arg_migrate : bool;                (* --migrate *)
  arg_test_label : list string;      (* <test-label>... *)
  arg_xvfb : bool;                   (* --xvfb *)
  arg_runner : option string;        (* --runner *)
  arg_extra_settings : option string;(* --extra-settings *)
  arg_cms : bool                     (* --cms *)
}.

(** A value passed as keyword argument to [call_command]. *)
Inductive PyVal : Type :=
| VBool (b : bool)
| VStr (s : string)
| VTuple (l : list string).

(** One [call_command(name, *args, **kwargs)] invocation. *)
Record Command : Type := {
  cmd_name : string;
  cmd_args : list string;
  cmd_kwargs : list (string * PyVal)
}.

(** A class descriptor of [pyclbr]: the methods of the class with the line
    they are defined on. *)
Record ClassDescr : Type := {
  cls_lineno : nat;
  cls_methods : gmap string nat
}.

(** An imported module, as far as the helper looks at it. *)
Record PyModule : Type := {
  mod_name : string;
  mod_version : string               (* __version__ *)
}.

(** The effects the helper performs itself, in the order it performs them. *)
Inductive Event : Type :=
| EvMkdtemp (d : path)
| EvRmtree (d : path)
| EvChdir (d : path)
| EvSetdefault (key value : string)
| EvFilterWarnings
| EvMakeSettings (STATIC_ROOT MEDIA_ROOT : path)
| EvIterModules (dir : path)
| EvReadModule (name : string)
| EvRunTests (runner : option string) (failfast : bool) (labels : list string)
             (result : outcome Z)
| EvCallCommand (c : Command)
| EvLoadFromFile (p : path)
| EvPyflakes (modules : list string)
| EvPopen (argv : list string)
| EvOpen (file : string)
| EvPrint (text : string).

(** ** The process state *)

Section Process.

(** Whatever Django and the other libraries keep as state. *)
Context {W : Type}.

Record Env : Type := {
  disk : gset path;
  cwd : path;
  environ : gmap string string;
  sys_path : list string;
  world : W
}.

Record State : Type := {
  trace : list Event;
  env : Env
}.

(** A call into a library: acts on the environment only. *)
Definition Ext (A : Type) : Type := Env → outcome A * Env.

(** A statement of the helper. *)
Definition M (A : Type) : Type := State → outcome A * State.

Definition ret {A} (a : A) : M A := λ s, (Ret a, s).

Definition raise {A} (e : exn) : M A := λ s, (Raise e, s).

Definition bind {A B} (k : A → M B) (m : M A) : M B := λ s,
  match m s with
  | (Ret a, s') => k a s'
  | (Raise e, s') => (Raise e, s')
  end.

(** [try: m  except <handles>: h] *)
Definition try_except {A} (m : M A) (handles : exn → bool) (h : M A) : M A :=
  λ s,
  match m s with
  | (Ret a, s') => (Ret a, s')
  | (Raise e, s') => if handles e then h s' else (Raise e, s')
  end.

(** [try: m  finally: c] *)
Definition try_finally {A} (m : M A) (c : M unit) : M A := λ s,
  match m s with
  | (r, s') =>
      match c s' with
      | (Ret _, s'') => (r, s'')
      | (Raise e, s'') => (Raise e, s'')
      end
  end.

(** Record an effect of the helper. *)
Definition emit (ev : Event) : M unit := λ s,
  (Ret tt, {| trace := trace s ++ [ev]; env := env s |}).

(** Run a library call. *)
Definition call {A} (f : Ext A) : M A := λ s,
  match f (env s) with
  | (r, e') => (r, {| trace := trace s; env := e' |})
  end.

(** Read the environment. *)
Definition get_env : M Env := λ s, (Ret (env s), s).

(** [print(text)] *)
Definition print (text : string) : M unit := emit (EvPrint text).

(** [sys.exit(code)] *)
Definition sys_exit {A} (code : Z) : M A := raise (SystemExit code).

(** An object usable in a [with] statement. *)
Record ContextManager (A : Type) : Type := {
  cm_enter : M A;
  cm_exit : A → M unit
}.

End Process.

Arguments Env W : clear implicits.
Arguments State W : clear implicits.
Arguments Ext W A : clear implicits.
Arguments M W A : clear implicits.
Arguments ContextManager W A : clear implicits.
Arguments cm_enter {W A} _.
Arguments cm_exit {W A} _.

Global Instance M_ret {W} : MRet (M W) := @ret W.
Global Instance M_bind {W} : MBind (M W) := @bind W.

(** [with cm as x: body x].  None of the helper's context managers
    suppresses an exception, so the exit handler only runs its cleanup. *)
Definition with_ {W A B} (cm : ContextManager W A) (body : A → M W B) : M W B :=
  x ← cm_enter cm; try_finally (body x) (cm_exit cm x).

(** Lift a pure computation that may raise. *)
Definition lift {W A} (r : outcome A) : M W A := λ s, (r, s).

(** Record an effect, then run the library call behind it. *)
Definition invoke {W A} (ev : Event) (f : Ext W A) : M W A :=
  emit ev;; call f.

(** Run a library call and record it together with what it answered. *)
Definition observe {W A} (ev : outcome A → Event) (f : Ext W A) : M W A := λ s,
  match f (env s) with
  | (r, e') => (r, {| trace := trace s ++ [ev r]; env := e' |})
  end.

(** ** What the helper calls into *)

(** The libraries and the parts of the helper's [utils] module that
    [main.py] uses.  [docopt] is given the usage text of [main.py]; the
    argument is the [version] keyword. *)
Record Externals (W : Type) : Type := {
  DJANGO_1_5 : bool;
  DJANGO_1_6 : bool;
  docopt : option string → list string → outcome Args;
  import_module : string → Ext W PyModule;
  _make_settings : Args → string → path → path → Ext W unit;
  load_from_file : path → Ext W (option PyModule);
  iter_modules : path → Env W → list string;
  readmodule : string → Ext W (gmap string ClassDescr);
  run_tests : option string → bool → list string → Ext W Z;
  call_command : Command → Ext W unit;
  import_pyflakes : Ext W unit;
  pyflakes : list PyModule → Ext W Z;
  import_xvfbwrapper : Ext W unit;
  xvfb_start : Ext W unit;
  xvfb_stop : Ext W unit;
  popen_readlines : list string → Ext W (list string);
  open_readlines : string → Ext W (list string)
}.
Arguments DJANGO_1_5 {W} _.
Arguments DJANGO_1_6 {W} _.
Arguments docopt {W} _ _ _.
Arguments import_module {W} _ _ _.
Arguments _make_settings {W} _ _ _ _ _ _.
Arguments load_from_file {W} _ _ _.
Arguments iter_modules {W} _ _ _.
Arguments readmodule {W} _ _ _.
Arguments run_tests {W} _ _ _ _ _.
Arguments call_command {W} _ _ _.
Arguments import_pyflakes {W} _ _.
Arguments pyflakes {W} _ _ _.
Arguments import_xvfbwrapper {W} _ _.
Arguments xvfb_start {W} _ _.
Arguments xvfb_stop {W} _ _.
Arguments popen_readlines {W} _ _ _.
Arguments open_readlines {W} _ _ _.

(** ** Scoped resources *)

Section Resources.
Context {W : Type}.

(** Every name that occurs in a path of the disk. *)
Definition used_names (dk : gset path) : list string :=
  mjoin (elements dk).

(** The system directory temporary directories are created in. *)
Definition tempdir : path := ["tmp"].

(** The name [mkdtemp] picks: one that occurs nowhere on the disk. *)
Definition new_dir (dk : gset path) : path :=
  tempdir ++ [fresh (used_names dk)].

(** [tempfile.mkdtemp()]: a directory that did not exist before. *)
Definition mkdtemp : M W path := λ s,
  let e := env s in
  let d := new_dir (disk e) in
  (Ret d,
   {| trace := trace s ++ [EvMkdtemp d];
      env := {| disk := {[ d ]} ∪ disk e; cwd := cwd e;
                environ := environ e; sys_path := sys_path e;
                world := world e |} |}).

(** [shutil.rmtree(d)]: [d] and everything below it disappears. *)
Definition rmtree (d : path) : M W unit := λ s,
  let e := env s in
  (Ret tt,
   {| trace := trace s ++ [EvRmtree d];
      env := {| disk := filter (λ p, ¬ d `prefix_of` p) (disk e);
                cwd := cwd e; environ := environ e;
                sys_path := sys_path e; world := world e |} |}).

(** Modelled from the spec: [utils.temp_dir], which is not part of the
    sources at hand.  It creates a fresh, uniquely named temporary
    directory, hands its path to the body of the [with] statement and
    removes it recursively when the body returns, raises or is
    interrupted. *)
Definition temp_dir : ContextManager W path :=
  {| cm_enter := mkdtemp; cm_exit := rmtree |}.

(** [os.chdir(d)] *)
Definition chdir (d : path) : M W unit := λ s,
  let e := env s in
  (Ret tt,
   {| trace := trace s ++ [EvChdir d];
      env := {| disk := disk e; cwd := d; environ := environ e;
                sys_path := sys_path e; world := world e |} |}).

(** Modelled from the spec: [utils.work_in], which is not part of the
    sources at hand.  It changes the working directory to the given one
    and restores the previous one afterwards, whatever the outcome. *)
Definition work_in (dirname : string) : ContextManager W path :=
  {| cm_enter := (e ← get_env; chdir (cwd e ++ [dirname]);; mret (cwd e));
     cm_exit := chdir |}.

(** The context manager that does nothing ([null_context] in [core]). *)
Definition null_context : ContextManager W unit :=
  {| cm_enter := mret tt; cm_exit := λ _, mret tt |}.

(** [os.environ.setdefault(key, value)] *)
Definition environ_setdefault (key value : string) : M W unit := λ s,
  let e := env s in
  (Ret tt,
   {| trace := trace s ++ [EvSetdefault key value];
      env := {| disk := disk e; cwd := cwd e;
                environ := match environ e !! key with
                           | Some _ => environ e
                           | None => <[key := value]> (environ e)
                           end;
                sys_path := sys_path e; world := world e |} |}).


(** [warnings.filterwarnings('error', ...)] for naive datetimes. *)
Definition filterwarnings : M W unit := emit EvFilterWarnings.

End Resources.

(** ** The helper: [djangocms_helper/main.py] *)

(** The line terminator, as a string. *)
Definition nl : string := String Py.newline "".

Section Helper.
Context {W : Type} (X : Externals W).

(** *** Test discovery *)

(** ['%s.%s.%s' % (application, clsname, method)] *)
Definition test_label (application clsname method : string) : string :=
  application +:+ "." +:+ clsname +:+ "." +:+ method.

(** The loop over [cls.methods.items()]. *)
Definition class_loop (application clsname : string) (cls : ClassDescr)
    (test_labels : list string) : list string :=
  foldl (λ acc (item : string * nat),
           if Py.startswith item.1 "test_"
           then acc ++ [test_label application clsname item.1]
           else acc)
        test_labels (map_to_list (cls_methods cls)).

(** The loop over [clsmembers.items()]. *)
Definition module_loop (application : string)
    (clsmembers : gmap string ClassDescr)
    (test_labels : list string) : list string :=
  foldl (λ acc (item : string * ClassDescr),
           class_loop application item.1 item.2 acc)
        test_labels (map_to_list clsmembers).

(** The loop over the modules found in the [tests] directory. *)
Fixpoint modules_loop (application : string) (modules : list string)
    (test_labels : list string) : M W (list string) :=
  match modules with
  | [] => mret test_labels
  | module :: modules' =>
      let name := application +:+ ".tests." +:+ module in
      clsmembers ← invoke (EvReadModule name) (readmodule X name);
      modules_loop application modules'
        (module_loop application clsmembers test_labels)
  end.

Definition _get_test_labels (application : string) : M W (list string) :=
  let dir := os_path_join [application; "tests"] in
  emit (EvIterModules dir);;
  e ← get_env;
  test_labels ← modules_loop application (iter_modules X dir e) [];
  mret (Py.sorted test_labels).

(** *** Running the tests *)

Definition _test_run_worker (test_labels : list string) (failfast : bool)
    (test_runner : option string) : M W Z :=
  filterwarnings;;
  failures ← observe (EvRunTests test_runner failfast test_labels)
                     (run_tests X test_runner failfast test_labels);
  mret failures.

Definition test (test_labels : list string) (application : string)
    (failfast : bool) (test_runner : option string) : M W Z :=
  test_labels ← (if Py.truthy test_labels then mret test_labels
                 else _get_test_labels application);
  _test_run_worker test_labels failfast test_runner.

(** *** Messages, shell, migrations *)

Definition compilemessages (application : string) : M W unit :=
  with_ (work_in application) (λ _,
    let c := {| cmd_name := "compilemessages"; cmd_args := [];
                cmd_kwargs := [("all", VBool true)] |} in
    invoke (EvCallCommand c) (call_command X c)).

Definition makemessages (application : string) : M W unit :=
  with_ (work_in application) (λ _,
    if DJANGO_1_5 X then
      let c := {| cmd_name := "makemessages"; cmd_args := [];
                  cmd_kwargs := [("locale", VStr "en")] |} in
      invoke (EvCallCommand c) (call_command X c)
    else
      let c := {| cmd_name := "makemessages"; cmd_args := [];
                  cmd_kwargs := [("locale", VTuple ["en"])] |} in
      invoke (EvCallCommand c) (call_command X c)).

Definition shell : M W unit :=
  let c := {| cmd_name := "shell"; cmd_args := []; cmd_kwargs := [] |} in
  invoke (EvCallCommand c) (call_command X c).

Definition makemigrations (application : string) : M W unit :=
  if DJANGO_1_6 X then
    let file := os_path_join [application; "migrations"; "0001_initial.py"] in
    loaded ← try_except (invoke (EvLoadFromFile file) (load_from_file X file))
                        is_IOError (mret None);
    let initial := match loaded with None => true | Some _ => false end in
    let c := {| cmd_name := "schemamigration"; cmd_args := [application];
                cmd_kwargs := [("initial", VBool initial);
                               ("auto", VBool (negb initial))] |} in
    invoke (EvCallCommand c) (call_command X c)
  else
    let c := {| cmd_name := "makemigrations"; cmd_args := [application];
                cmd_kwargs := [] |} in
    invoke (EvCallCommand c) (call_command X c).

(** *** Authors *)

(** The test-and-append both loops of [generate_authors] perform on the
    pair [(seen_authors, authors)]. *)
Definition add_author (st : list string * list string) (author : string)
    : list string * list string :=
  if bool_decide (Py.lower author ∈ st.1) then st
  else (st.1 ++ [Py.lower author], st.2 ++ [author]).

(** One line of the AUTHORS file. *)
Definition file_line (st : list string * list string) (line : string)
    : list string * list string :=
  if Py.startswith line "*"
  then add_author st (Py.strip_chars ["*"; " "; Py.newline]%char line)
  else st.

(** One line of the git log. *)
Definition log_line (st : list string * list string) (line : string)
    : list string * list string :=
  add_author st (Py.strip line).

(** The list [authors] after the two loops and the sort. *)
Definition authors_list (file_lines log_lines : list string) : list string :=
  let st := foldl file_line ([], []) file_lines in
  let st := foldl log_line st log_lines in
  Py.sorted_by Py.lower st.2.

(** [u"Authors (%s):\n\n\n* %s" % (len(authors), u"\n* ".join(authors))] *)
Definition authors_report (authors : list string) : string :=
  "Authors (" +:+ pretty (length authors) +:+ "):" +:+ nl +:+ nl +:+ nl
  +:+ "* " +:+ Py.join (nl +:+ "* ") authors.

Definition generate_authors : M W unit :=
  print "Generating AUTHORS";;
  print "Collecting author names";;
  let argv := ["git"; "log"; "--use-mailmap"; "--format=%aN"] in
  log_lines ← invoke (EvPopen argv) (popen_readlines X argv);
  file_lines ← invoke (EvOpen "AUTHORS") (open_readlines X "AUTHORS");
  print (authors_report (authors_list file_lines log_lines)).

(** *** Static analysis *)

Definition static_analisys (application : string) : M W unit :=
  try_except
    (call (import_pyflakes X);;
     application_module ← call (import_module X application);
     issues ← invoke (EvPyflakes [mod_name application_module])
                     (pyflakes X [application_module]);
     if (issues =? 0)%Z then mret tt else raise AssertionError)
    is_ImportError
    (print "Static analisys available only if django CMS is installed").

(** *** Dispatch *)

(** The virtual framebuffer of [xvfbwrapper.Xvfb(width=1280, height=720)]. *)
Definition Xvfb : ContextManager W unit :=
  {| cm_enter := call (xvfb_start X); cm_exit := λ _, call (xvfb_stop X) |}.

(** The block of [core] inside the two [with temp_dir()] statements. *)
Definition core_block (args : Args) (application : string)
    (STATIC_ROOT MEDIA_ROOT : path) : M W unit :=
  invoke (EvMakeSettings STATIC_ROOT MEDIA_ROOT)
         (_make_settings X args application STATIC_ROOT MEDIA_ROOT);;
  if arg_test args then
    environ_setdefault "DJANGO_LIVE_TEST_SERVER_ADDRESS"
                       "localhost:8000-9000";;
    context ← (if arg_xvfb args
               then call (import_xvfbwrapper X);; mret Xvfb
               else mret null_context);
    with_ context (λ _,
      num_failures ← test (arg_test_label args) application
                          (arg_failfast args) (arg_runner args);
      sys_exit num_failures)
  else if arg_shell args then shell
  else if arg_compilemessages args then compilemessages application
  else if arg_makemessages args then makemessages application
  else if arg_makemigrations args then makemigrations application
  else if arg_pyflakes args then static_analisys application
  else if arg_authors args then generate_authors
  else mret tt.

Definition core (args : Args) (application : string) : M W unit :=
  filterwarnings;;
  with_ temp_dir (λ STATIC_ROOT,
    with_ temp_dir (λ MEDIA_ROOT,
      core_block args application STATIC_ROOT MEDIA_ROOT)).


End Helper.

(** ** The design document's descriptions, as definitions *)

(** *** Discovery: one label per test method *)

(** Whether a method name bears the conventional test prefix. *)
Definition is_test_method (method : string) : Prop :=
  Py.startswith method "test_" = true.

Global Instance is_test_method_dec method : Decision (is_test_method method).
Proof. unfold is_test_method. apply _. Defined.

(** The test methods of a class, by name. *)
Definition test_methods (cls : ClassDescr) : list string :=
  filter is_test_method (map_to_list (cls_methods cls)).*1.

(** The pairs (class name, test method name) a module defines. *)
Definition module_tests (clsmembers : gmap string ClassDescr)
    : list (string * string) :=
  item ← map_to_list clsmembers;
  (λ method, (item.1, method)) <$> test_methods item.2.

(** [application.ClassName.methodName] for every test method of every class
    of every module of the tree. *)
Definition tree_labels (application : string)
    (tree : string → gmap string ClassDescr) (modules : list string)
    : list string :=
  module ← modules;
  (λ cm, test_label application cm.1 cm.2) <$> module_tests (tree module).

(** The externals read the test tree [tree] with modules [modules]:
    enumeration and static parsing succeed and leave the environment alone. *)
Definition reads_tree {W} (X : Externals W) (application : string)
    (modules : list string) (tree : string → gmap string ClassDescr) : Prop :=
  (∀ e, iter_modules X (os_path_join [application; "tests"]) e = modules) ∧
  (∀ module e, module ∈ modules →
     readmodule X (application +:+ ".tests." +:+ module) e
     = (Ret (tree module), e)).

(** The effects of reading the modules one after the other. *)
Definition read_events (application : string) (modules : list string)
    : list Event :=
  (λ module, EvReadModule (application +:+ ".tests." +:+ module)) <$> modules.

(** A name without a dot, as every Python identifier is. *)
Fixpoint dotless (s : string) : Prop :=
  match s with
  | EmptyString => True
  | String c s' => c ≠ "."%char ∧ dotless s'
  end.

(** Class names of the tree are identifiers. *)
Definition class_names_dotless (tree : string → gmap string ClassDescr)
    (modules : list string) : Prop :=
  ∀ module clsname, module ∈ modules →
    is_Some (tree module !! clsname) → dotless clsname.

(** No class with a test method of the same name in two modules. *)
Definition tests_disjoint (tree : string → gmap string ClassDescr)
    (modules : list string) : Prop :=
  ∀ m1 m2 cm, m1 ∈ modules → m2 ∈ modules → m1 ≠ m2 →
    cm ∈ module_tests (tree m1) → cm ∉ module_tests (tree m2).

(** *** Authors: merge, deduplicate, sort *)

(** The authors the AUTHORS file lists: the text of its starred lines. *)
Definition file_authors (file_lines : list string) : list string :=
  Py.strip_chars ["*"; " "; Py.newline]%char
    <$> filter (λ line, Py.startswith line "*" = true) file_lines.

(** The authors of the log: one per line. *)
Definition log_authors (log_lines : list string) : list string :=
  Py.strip <$> log_lines.

(** Keep the first occurrence of every name, compared without case. *)
Definition dedup_ci (names : list string) : list string :=
  foldr (λ a rest, a :: filter (λ b, Py.lower b ≠ Py.lower a) rest) [] names.

(** File authors first, then log authors; deduplicated without case, the
    first casing kept; sorted without case. *)
Definition authors_spec (file_lines log_lines : list string) : list string :=
  Py.sorted_by Py.lower (dedup_ci (file_authors file_lines ++ log_authors log_lines)).

(** *** Commands *)

(** The locales a [makemessages] command asks extraction for. *)
Definition requested_locales (c : Command) : list string :=
  match list_find (λ kv, kv.1 = "locale") (cmd_kwargs c) with
  | Some (_, (_, VStr locale)) => [locale]
  | Some (_, (_, VTuple locales)) => locales
  | _ => []
  end.

(** The generation modes of schema migrations. *)
Inductive GenerationMode : Type := Initial | Incremental.

Global Instance GenerationMode_eq_dec : EqDecision GenerationMode.
Proof. solve_decision. Defined.



(** The commands among some events. *)
Definition commands (evs : list Event) : list Command :=
  omap (λ ev, match ev with EvCallCommand c => Some c | _ => None end) evs.


(** The temporary directories created, according to a trace. *)
Definition created_dirs (evs : list Event) : list path :=
  omap (λ ev, match ev with EvMkdtemp d => Some d | _ => None end) evs.

(** A directory is gone when neither it nor anything below it is on disk. *)
Definition gone (d : path) (dk : gset path) : Prop :=
  ∀ p, p ∈ dk → ¬ d `prefix_of` p.

(** What a statement can return. *)
Definition returns {W A} (m : M W A) (a : A) : Prop :=
  ∃ s s', m s = (Ret a, s').

(** An effect that neither creates nor removes a temporary directory. *)
Definition no_tempdir_event (ev : Event) : Prop :=
  match ev with EvMkdtemp _ | EvRmtree _ => False | _ => True end.

(** An effect that does not consult test discovery. *)
Definition no_discovery_event (ev : Event) : Prop :=
  match ev with EvIterModules _ | EvReadModule _ => False | _ => True end.

(** Message extraction, if that is what the effect is, is for ['en'] only. *)
Definition extracts_en_only (ev : Event) : Prop :=
  match ev with
  | EvCallCommand c => cmd_name c = "makemessages" → requested_locales c = ["en"]
  | _ => True
  end.

(** An effect other than a test run. *)
Definition no_test_run (ev : Event) : Prop :=
  match ev with EvRunTests _ _ _ _ => False | _ => True end.

(** [m] ends in [SystemExit n] whenever a test run among its effects
    reported [n] failures. *)
Definition exits_with_failures {W A} (m : M W A) : Prop :=
  ∀ s, ∃ evs,
    trace (m s).2 = trace s ++ evs ∧
    ∀ runner failfast labels n,
      EvRunTests runner failfast labels (Ret n) ∈ evs →
      (m s).1 = Raise (SystemExit n).

(** What the operation handlers do: they leave the temporary directories
    to [core], and extract messages for ['en'] only. *)
Definition handler_event (ev : Event) : Prop :=
  no_tempdir_event ev ∧ extracts_en_only ev.

(** Every effect of [m] satisfies [P], and the trace only grows. *)
Definition emits {W A} (P : Event → Prop) (m : M W A) : Prop :=
  ∀ s, ∃ evs, trace (m s).2 = trace s ++ evs ∧ Forall P evs.

(** ** A concrete installation to run the helper on *)

Module Demo.

(** The seven operation keywords of the usage text. *)
Definition operations : list string :=
  ["test"; "shell"; "compilemessages"; "makemessages"; "makemigrations";
   "pyflakes"; "authors"].

(** The dictionary for [<application> <operation> [<test-label>...]]. *)
Definition invocation (application op : string) (labels : list string) : Args :=
  {| arg_application := application;
     arg_test := bool_decide (op = "test");
     arg_shell := bool_decide (op = "shell");
     arg_compilemessages := bool_decide (op = "compilemessages");
     arg_makemessages := bool_decide (op = "makemessages");
     arg_makemigrations := bool_decide (op = "makemigrations");
     arg_pyflakes := bool_decide (op = "pyflakes");
     arg_authors := bool_decide (op = "authors");
     arg_failfast := false; arg_migrate := false;
     arg_test_label := labels; arg_xvfb := false;
     arg_runner := None; arg_extra_settings := None;
     arg_cms := false |}.

(** A parser for command lines of the form
    [<application> <operation> [<test-label>...]], without options. *)
Definition parse (argv : list string) : outcome Args :=
  match argv with
  | application :: op :: labels =>
      if bool_decide (op ∈ operations)
         && (bool_decide (op = "test") || negb (Py.truthy labels))
      then Ret (invocation application op labels)
      else Raise (DocoptExit "Usage")
  | _ => Raise (DocoptExit "Usage")
  end.

(** What varies between the installations used below. *)
Record Scenario : Type := {
  sc_django_1_5 : bool;
  sc_django_1_6 : bool;
  sc_modules : list string;
  sc_tree : string → gmap string ClassDescr;
  sc_failures : Z;
  sc_migration : outcome (option PyModule);
  sc_cms : outcome unit;
  sc_issues : Z;
  sc_authors_file : string;
  sc_git_log : list string
}.

Definition externals (sc : Scenario) : Externals unit := {|
  DJANGO_1_5 := sc_django_1_5 sc;
  DJANGO_1_6 := sc_django_1_6 sc;
  docopt := λ _ argv, parse argv;
  import_module := λ name e,
    (Ret {| mod_name := name; mod_version := "0.1" |}, e);
  _make_settings := λ _ _ _ _ e, (Ret tt, e);
  load_from_file := λ _ e, (sc_migration sc, e);
  iter_modules := λ _ _, sc_modules sc;
  readmodule := λ name e,
    (Ret (sc_tree sc (String.substring 10 (String.length name) name)), e);
  run_tests := λ _ _ _ e, (Ret (sc_failures sc), e);
  call_command := λ _ e, (Ret tt, e);
  import_pyflakes := λ e, (sc_cms sc, e);
  pyflakes := λ _ e, (Ret (sc_issues sc), e);
  import_xvfbwrapper := λ e, (Ret tt, e);
  xvfb_start := λ e, (Ret tt, e);
  xvfb_stop := λ e, (Ret tt, e);
  popen_readlines := λ _ e, (Ret (sc_git_log sc), e);
  open_readlines := λ _ e, (Ret (Py.readlines (sc_authors_file sc)), e)
|}.

(** A test class with one test method and one fixture method. *)
Definition FooTest : ClassDescr :=
  {| cls_lineno := 4; cls_methods := {[ "test_x" := 8%nat; "setUp" := 5%nat ]} |}.

(** Two test modules, each defining a class [FooTest]. *)
Definition twin_tree (module : string) : gmap string ClassDescr :=
  if bool_decide (module ∈ ["test_a"; "test_b"])
  then {[ "FooTest" := FooTest ]} else ∅.

(** The application [app] (module names are read off
    ["app.tests.<module>"]), with the twin tree, two failing tests, no
    initial migration, django CMS installed and three pyflakes issues. *)
Definition base : Scenario := {|
  sc_django_1_5 := false;
  sc_django_1_6 := true;
  sc_modules := ["test_a"; "test_b"];
  sc_tree := twin_tree;
  sc_failures := 2;
  sc_migration := Raise IOError;
  sc_cms := Ret tt;
  sc_issues := 3;
  sc_authors_file := "* Alice" +:+ nl +:+ "* bob" +:+ nl;
  sc_git_log := ["Carol" +:+ nl; "alice" +:+ nl]
|}.


(** The same without django CMS. *)
Definition without_cms : Scenario := {|
  sc_django_1_5 := false;
  sc_django_1_6 := true;
  sc_modules := sc_modules base;
  sc_tree := sc_tree base;
  sc_failures := sc_failures base;
  sc_migration := sc_migration base;
  sc_cms := Raise ImportError;
  sc_issues := sc_issues base;
  sc_authors_file := sc_authors_file base;
  sc_git_log := sc_git_log base
|}.

(** One test module only. *)
Definition single : Scenario := {|
  sc_django_1_5 := false;
  sc_django_1_6 := true;
  sc_modules := ["test_a"];
  sc_tree := sc_tree base;
  sc_failures := sc_failures base;
  sc_migration := sc_migration base;
  sc_cms := sc_cms base;
  sc_issues := sc_issues base;
  sc_authors_file := sc_authors_file base;
  sc_git_log := sc_git_log base
|}.

(** A process that has not done anything yet. *)
Definition start : State unit := {|
  trace := [];
  env := {| disk := ∅; cwd := ["home"; "dev"]; environ := ∅;
            sys_path := []; world := tt |}
|}.

End Demo.

(** ** Labels, exit statuses and usage, in their own words *)

(** A method name that begins with the conventional test prefix. *)
Definition has_test_prefix (method : string) : Prop :=
  ∃ rest, method = "test_" +:+ rest.

Global Instance has_test_prefix_dec method : Decision (has_test_prefix method).
Proof.
  unfold has_test_prefix.
  destruct method as [|c1 [|c2 [|c3 [|c4 [|c5 rest]]]]];
    try (right; intros [r Hr]; cbv [String.append] in Hr; discriminate Hr).
  destruct (decide (c1 = "t"%char)) as [->|H1];
    [|right; intros [r Hr]; cbv [String.append] in Hr; congruence].
  destruct (decide (c2 = "e"%char)) as [->|H2];
    [|right; intros [r Hr]; cbv [String.append] in Hr; congruence].
  destruct (decide (c3 = "s"%char)) as [->|H3];
    [|right; intros [r Hr]; cbv [String.append] in Hr; congruence].
  destruct (decide (c4 = "t"%char)) as [->|H4];
    [|right; intros [r Hr]; cbv [String.append] in Hr; congruence].
  destruct (decide (c5 = "_"%char)) as [->|H5];
    [|right; intros [r Hr]; cbv [String.append] in Hr; congruence].
  left. by exists rest.
Defined.

(** The labels the design document asks for: [application.Class.method]
    for every method with the test prefix of every class of the class
    dictionary of every module. *)
Definition expected_labels (application : string)
    (tree : string → gmap string ClassDescr) (modules : list string)
    : list string :=
  module ← modules;
  class_item ← map_to_list (tree module);
  method_item ← map_to_list (cls_methods class_item.2);
  if decide (has_test_prefix method_item.1)
  then [application +:+ "." +:+ class_item.1 +:+ "." +:+ method_item.1]
  else [].

(** The status a POSIX system reports for a process that ends in
    [sys.exit(code)]: the low eight bits of the code. *)
Definition posix_exit_status (code : Z) : Z := (code mod 256)%Z.




(** ** The dispatch of [core], and what operations do *)

Section Dispatch.
Context {W : Type} (X : Externals W).

(** The [if]/[elif] chain of [core], which runs once the settings are
    made. *)
Definition dispatch (args : Args) (application : string) : M W unit :=
  if arg_test args then
    environ_setdefault "DJANGO_LIVE_TEST_SERVER_ADDRESS"
                       "localhost:8000-9000";;
    context ← (if arg_xvfb args
               then call (import_xvfbwrapper X);; mret (Xvfb X)
               else mret null_context);
    with_ context (λ _,
      num_failures ← test X (arg_test_label args) application
                          (arg_failfast args) (arg_runner args);
      sys_exit num_failures)
  else if arg_shell args then shell X
  else if arg_compilemessages args then compilemessages X application
  else if arg_makemessages args then makemessages X application
  else if arg_makemigrations args then makemigrations X application
  else if arg_pyflakes args then static_analisys X application
  else if arg_authors args then generate_authors X
  else mret tt.

End Dispatch.

(** An effect an operation may have: anything but making the settings and
    handling the temporary directories. *)
Definition operation_event (ev : Event) : Prop :=
  match ev with
  | EvMkdtemp _ | EvRmtree _ | EvMakeSettings _ _ => False
  | _ => True
  end.

(** An effect an operation other than [test] may have: no test run, no
    test discovery, no change of [os.environ]. *)
Definition offline_event (ev : Event) : Prop :=
  match ev with
  | EvMkdtemp _ | EvRmtree _ | EvMakeSettings _ _
  | EvRunTests _ _ _ _ | EvIterModules _ | EvReadModule _
  | EvSetdefault _ _ => False
  | _ => True
  end.

(** An effect that is not a management command. *)
Definition no_command (ev : Event) : Prop :=
  match ev with EvCallCommand _ => False | _ => True end.

(** [m] issues at most [n] management commands. *)
Definition command_budget {W A} (n : nat) (m : M W A) : Prop :=
  ∀ s, ∃ evs,
    trace (m s).2 = trace s ++ evs ∧ (List.length (commands evs) ≤ n)%nat.

(** A statement that always ends in an exception. *)
Definition never_returns {W A} (m : M W A) : Prop :=
  ∀ s a, (m s).1 ≠ Ret a.

(** The line the report prints for an author. *)
Definition author_line (author : string) : string :=
  "* " +:+ author +:+ nl.

(** ** [app_helper/default_settings.py] *)

Module Settings.

Local Unset Elimination Schemes.

(** The values of the settings dictionary. *)
Inductive PyValue : Type :=
| PInt (n : Z)
| PBool (b : bool)
| PStr (s : string)
| PList (l : list PyValue)
| PTuple (l : list PyValue)
| PDict (items : list (string * PyValue)).

Local Set Elimination Schemes.

(** A list of strings, as a value. *)
Definition strs (l : list string) : PyValue := PList (PStr <$> l).

(** The applications listed before [CMS_APP_STYLE]. *)
Definition contrib_apps : list string :=
  ["django.contrib.contenttypes"; "django.contrib.auth";
   "django.contrib.sessions"; "django.contrib.sites";
   "django.contrib.staticfiles"].

(** The applications listed between [CMS_APP_STYLE] and [CMS_APP]. *)
Definition admin_apps : list string :=
  ["django.contrib.admin"; "app_helper.test_data"; "django.contrib.messages"].

(** The value of [INSTALLED_APPS]. *)
Definition installed_apps (CMS_APP CMS_APP_STYLE : list string) : list string :=
  contrib_apps ++ CMS_APP_STYLE ++ admin_apps ++ CMS_APP.

(** The context processors listed before [CMS_PROCESSORS]. *)
Definition context_processors : list string :=
  ["django.contrib.auth.context_processors.auth";
   "django.contrib.messages.context_processors.messages";
   "django.core.context_processors.i18n";
   "django.core.context_processors.csrf";
   "django.core.context_processors.debug";
   "django.core.context_processors.tz";
   "django.core.context_processors.request";
   "django.core.context_processors.media";
   "django.core.context_processors.static"].

(** The middleware listed before [CMS_MIDDLEWARE]. *)
Definition middleware_classes : list string :=
  ["django.middleware.http.ConditionalGetMiddleware";
   "django.contrib.sessions.middleware.SessionMiddleware";
   "django.contrib.auth.middleware.AuthenticationMiddleware";
   "django.contrib.messages.middleware.MessageMiddleware";
   "django.middleware.csrf.CsrfViewMiddleware";
   "django.middleware.locale.LocaleMiddleware";
   "django.middleware.common.CommonMiddleware"].

(** The keyword arguments of the [dict(...)] call, in source order. *)
Definition default_items
    (CMS_APP CMS_PROCESSORS CMS_MIDDLEWARE CMS_APP_STYLE : list string)
    (URLCONF application : string) : list (string * PyValue) :=
  [("INSTALLED_APPS", strs (installed_apps CMS_APP CMS_APP_STYLE));
   ("DATABASES",
    PDict [("default",
            PDict [("ENGINE", PStr "django.db.backends.sqlite3");
                   ("NAME", PStr ":memory:")])]);
   ("TEMPLATE_LOADERS",
    strs ["django.template.loaders.filesystem.Loader";
          "django.template.loaders.app_directories.Loader"]);
   ("STATICFILES_FINDERS",
    strs ["django.contrib.staticfiles.finders.FileSystemFinder";
          "django.contrib.staticfiles.finders.AppDirectoriesFinder"]);
   ("TEMPLATE_CONTEXT_PROCESSORS", strs (context_processors ++ CMS_PROCESSORS));
   ("MIDDLEWARE_CLASSES", strs (middleware_classes ++ CMS_MIDDLEWARE));
   ("ROOT_URLCONF", PStr URLCONF);
   ("SITE_ID", PInt 1);
   ("LANGUAGE_CODE", PStr "en");
   ("LANGUAGES", PTuple [PTuple [PStr "en"; PStr "English"]]);
   ("STATIC_URL", PStr "/static/");
   ("MEDIA_URL", PStr "/media/");
   ("DEBUG", PBool true);
   ("CMS_TEMPLATES",
    PTuple [PTuple [PStr "fullwidth.html"; PStr "Fullwidth"];
            PTuple [PStr "page.html"; PStr "Normal page"]]);
   ("PASSWORD_HASHERS",
    PTuple [PStr "django.contrib.auth.hashers.MD5PasswordHasher"]);
   ("MIGRATION_MODULES", PDict []);
   ("EMAIL_BACKEND", PStr "django.core.mail.backends.locmem.EmailBackend");
   ("ASGI_APPLICATION", PStr "app_helper.asgi:application");
   ("SECRET_KEY", PStr "django CMS rocks")].

Definition get_default_settings
    (CMS_APP CMS_PROCESSORS CMS_MIDDLEWARE CMS_APP_STYLE : list string)
    (URLCONF application : string) : gmap string PyValue :=
  list_to_map (default_items CMS_APP CMS_PROCESSORS CMS_MIDDLEWARE
                 CMS_APP_STYLE URLCONF application).

(** The strings of a list value; nothing for any other value. *)
Definition as_strs (v : PyValue) : option (list string) :=
  match v with
  | PList l => mapM (λ x, match x with PStr s => Some s | _ => None end) l
  | _ => None
  end.

(** [settings[key]] read as a list of strings. *)
Definition setting_strs (settings : gmap string PyValue) (key : string)
    : option (list string) :=
  settings !! key ≫= as_strs.

End Settings.

(** ** [app_helper/urls.py] *)

Module Urls.

(** What a URL pattern routes to. *)
Inductive Target : Type :=
| TServe (document_root : path) (show_indexes : bool)
| TJavaScriptCatalog
| TAdminSite
| TInclude (module : string).

(** One [path(route, target)]. *)
Record Url : Type := { route : string; target : Target }.

(** An entry of [urlpatterns]: a plain pattern or what Django's helpers
    return. *)
Inductive Entry : Type :=
| Plain (u : Url)
| Localized (inner : list Url)
| Static (name : string).

(** The settings the module reads. *)
Record UrlSettings : Type := {
  MEDIA_ROOT : path;
  BASE_APPLICATION : string;
  USE_CMS : bool
}.

(** What the module calls into: [admin.autodiscover()],
    [utils.load_from_file], [include(module)], [i18n_patterns] applied to
    the localized URLs (what it returns depends on Django's settings) and
    [staticfiles_urlpatterns()]. *)
Record UrlExternals (W : Type) : Type := {
  autodiscover : Ext W unit;
  load_urls_file : string → Ext W unit;
  include : string → Ext W Target;
  i18n_patterns : list Url → Ext W (list Entry);
  staticfiles_urlpatterns : Ext W (list Entry)
}.
Arguments autodiscover {W} _ _.
Arguments load_urls_file {W} _ _ _.
Arguments include {W} _ _ _.
Arguments i18n_patterns {W} _ _ _.
Arguments staticfiles_urlpatterns {W} _ _.

(** [except OSError], where [IOError] is another name of [OSError]. *)
Definition is_OSError (e : exn) : bool :=
  match e with OSError | IOError => true | _ => false end.

Section Module.
Context {W : Type} (U : UrlExternals W) (settings : UrlSettings).

(** The [try] block: the application's own URLs, if it has any. *)
Definition application_urls (i18n_urls : list Url) : M W (list Url) :=
  let module := BASE_APPLICATION settings +:+ ".urls" in
  try_except
    (call (load_urls_file U module);;
     included ← call (include U module);
     mret (i18n_urls ++
           [{| route := "^" +:+ BASE_APPLICATION settings +:+ "/";
               target := included |}]))
    is_OSError
    (mret i18n_urls).

(** The module body: the value [urlpatterns] has once it is imported. *)
Definition urlpatterns : M W (list Entry) :=
  call (autodiscover U);;
  let urlpatterns :=
    [Plain {| route := "media/<str:path>";
              target := TServe (MEDIA_ROOT settings) true |};
     Plain {| route := "jsi18n/<str:packages>";
              target := TJavaScriptCatalog |}] in
  let i18n_urls := [{| route := "admin/"; target := TAdminSite |}] in
  i18n_urls ← application_urls i18n_urls;
  i18n_urls ← (if USE_CMS settings
               then included ← call (include U "cms.urls");
                    mret (i18n_urls ++ [{| route := ""; target := included |}])
               else mret i18n_urls);
  localized ← call (i18n_patterns U i18n_urls);
  let urlpatterns := urlpatterns ++ localized in
  static ← call (staticfiles_urlpatterns U);
  mret (urlpatterns ++ static).

End Module.

End Urls.

(** ** Installations in which something goes wrong *)

Module Faulty.

(** What goes wrong. *)
Record Faults : Type := {
  settings_result : outcome unit;
  unreadable : list string;
  import_result : string → outcome PyModule;
  popen_result : outcome (list string);
  open_result : outcome (list string)
}.

(** The installation [sc] with the faults [f]: modules named in
    [unreadable] cannot be parsed. *)
Definition externals (sc : Demo.Scenario) (f : Faults) : Externals unit := {|
  DJANGO_1_5 := Demo.sc_django_1_5 sc;
  DJANGO_1_6 := Demo.sc_django_1_6 sc;
  docopt := λ _ argv, Demo.parse argv;
  import_module := λ name e, (import_result f name, e);
  _make_settings := λ _ _ _ _ e, (settings_result f, e);
  load_from_file := λ _ e, (Demo.sc_migration sc, e);
  iter_modules := λ _ _, Demo.sc_modules sc;
  readmodule := λ name e,
    if bool_decide (name ∈ unreadable f) then (Raise ImportError, e)
    else (Ret (Demo.sc_tree sc (String.substring 10 (String.length name) name)), e);
  run_tests := λ _ _ _ e, (Ret (Demo.sc_failures sc), e);
  call_command := λ _ e, (Ret tt, e);
  import_pyflakes := λ e, (Demo.sc_cms sc, e);
  pyflakes := λ _ e, (Ret (Demo.sc_issues sc), e);
  import_xvfbwrapper := λ e, (Ret tt, e);
  xvfb_start := λ e, (Ret tt, e);
  xvfb_stop := λ e, (Ret tt, e);
  popen_readlines := λ _ e, (popen_result f, e);
  open_readlines := λ _ e, (open_result f, e)
|}.

(** Nothing goes wrong. *)
Definition none : Faults := {|
  settings_result := Ret tt;
  unreadable := [];
  import_result := λ name, Ret {| mod_name := name; mod_version := "0.1" |};
  popen_result := Ret ["Carol" +:+ nl; "alice" +:+ nl];
  open_result := Ret ["* Alice" +:+ nl; "* bob" +:+ nl]
|}.

(** The extra-settings file is broken. *)
Definition bad_settings : Faults := {|
  settings_result := Raise (OtherError "ImproperlyConfigured");
  unreadable := unreadable none;
  import_result := import_result none;
  popen_result := popen_result none;
  open_result := open_result none
|}.

(** The second test module cannot be read. *)
Definition bad_module : Faults := {|
  settings_result := Ret tt;
  unreadable := ["app.tests.test_b"];
  import_result := import_result none;
  popen_result := popen_result none;
  open_result := open_result none
|}.

(** The application cannot be imported. *)
Definition bad_import : Faults := {|
  settings_result := Ret tt;
  unreadable := unreadable none;
  import_result := λ _, Raise ImportError;
  popen_result := popen_result none;
  open_result := open_result none
|}.

(** There is no AUTHORS file. *)
Definition no_authors_file : Faults := {|
  settings_result := Ret tt;
  unreadable := unreadable none;
  import_result := import_result none;
  popen_result := popen_result none;
  open_result := Raise IOError
|}.

(** Three test modules, the middle one without tests. *)
Definition three_modules : Demo.Scenario := {|
  Demo.sc_django_1_5 := false;
  Demo.sc_django_1_6 := true;
  Demo.sc_modules := ["test_a"; "test_c"; "test_b"];
  Demo.sc_tree := Demo.twin_tree;
  Demo.sc_failures := 0;
  Demo.sc_migration := Raise IOError;
  Demo.sc_cms := Ret tt;
  Demo.sc_issues := 0;
  Demo.sc_authors_file := "";
  Demo.sc_git_log := []
|}.

(** No test module at all, and a clean analysis. *)
Definition no_tests : Demo.Scenario := {|
  Demo.sc_django_1_5 := false;
  Demo.sc_django_1_6 := true;
  Demo.sc_modules := [];
  Demo.sc_tree := Demo.twin_tree;
  Demo.sc_failures := 0;
  Demo.sc_migration := Raise IOError;
  Demo.sc_cms := Ret tt;
  Demo.sc_issues := 0;
  Demo.sc_authors_file := "";
  Demo.sc_git_log := []
|}.

(** The three modules, listed in another order. *)
Definition reordered : Demo.Scenario := {|
  Demo.sc_django_1_5 := false;
  Demo.sc_django_1_6 := true;
  Demo.sc_modules := ["test_b"; "test_a"; "test_c"];
  Demo.sc_tree := Demo.twin_tree;
  Demo.sc_failures := 0;
  Demo.sc_migration := Raise IOError;
  Demo.sc_cms := Ret tt;
  Demo.sc_issues := 0;
  Demo.sc_authors_file := "";
  Demo.sc_git_log := []
|}.

(** A process in which the live-server address is already chosen. *)
Definition with_address : State unit := {|
  trace := [];
  env := {| disk := ∅; cwd := ["home"; "dev"];
            environ := {[ "DJANGO_LIVE_TEST_SERVER_ADDRESS" := "localhost:9100" ]};
            sys_path := []; world := tt |}
|}.

(** A URL module environment in which the application has no [urls.py]. *)
Definition no_app_urls : Urls.UrlExternals unit := {|
  Urls.autodiscover := λ e, (Ret tt, e);
  Urls.load_urls_file := λ _ e, (Raise OSError, e);
  Urls.include := λ module e, (Ret (Urls.TInclude module), e);
  Urls.i18n_patterns := λ urls e, (Ret [Urls.Localized urls], e);
  Urls.staticfiles_urlpatterns := λ e, (Ret [Urls.Static "static/"], e)
|}.

(** A URL module environment in which it has one. *)
Definition with_app_urls : Urls.UrlExternals unit := {|
  Urls.autodiscover := λ e, (Ret tt, e);
  Urls.load_urls_file := λ _ e, (Ret tt, e);
  Urls.include := λ module e, (Ret (Urls.TInclude module), e);
  Urls.i18n_patterns := λ urls e, (Ret [Urls.Localized urls], e);
  Urls.staticfiles_urlpatterns := λ e, (Ret [Urls.Static "static/"], e)
|}.

(** A URL module environment of a site without internationalization, in
    which [i18n_patterns] hands the URLs back as they are. *)
Definition without_i18n : Urls.UrlExternals unit := {|
  Urls.autodiscover := λ e, (Ret tt, e);
  Urls.load_urls_file := λ _ e, (Ret tt, e);
  Urls.include := λ module e, (Ret (Urls.TInclude module), e);
  Urls.i18n_patterns := λ urls e, (Ret (Urls.Plain <$> urls), e);
  Urls.staticfiles_urlpatterns := λ e, (Ret [Urls.Static "static/"], e)
|}.

(** Two test classes in two modules: [FooTest] with two tests and a
    fixture in [test_a], [BarTest] with one test and a helper in
    [test_b]. *)
Definition distinct_tree (module : string) : gmap string ClassDescr :=
  if bool_decide (module = "test_a") then
    {[ "FooTest" := {| cls_lineno := 4;
                       cls_methods := {[ "test_x" := 8%nat; "test_y" := 12%nat;
                                         "setUp" := 5%nat ]} |} ]}
  else if bool_decide (module = "test_b") then
    {[ "BarTest" := {| cls_lineno := 3;
                       cls_methods := {[ "test_x" := 4%nat;
                                         "testing" := 9%nat ]} |} ]}
  else ∅.

(** The application with these two modules. *)
Definition two_classes : Demo.Scenario := {|
  Demo.sc_django_1_5 := false;
  Demo.sc_django_1_6 := true;
  Demo.sc_modules := ["test_b"; "test_a"];
  Demo.sc_tree := distinct_tree;
  Demo.sc_failures := 0;
  Demo.sc_migration := Raise IOError;
  Demo.sc_cms := Ret tt;
  Demo.sc_issues := 0;
  Demo.sc_authors_file := "";
  Demo.sc_git_log := []
|}.

(** A test run in which 256 tests fail. *)
Definition many_failures : Demo.Scenario := {|
  Demo.sc_django_1_5 := false;
  Demo.sc_django_1_6 := true;
  Demo.sc_modules := ["test_a"; "test_b"];
  Demo.sc_tree := Demo.twin_tree;
  Demo.sc_failures := 256;
  Demo.sc_migration := Raise IOError;
  Demo.sc_cms := Ret tt;
  Demo.sc_issues := 0;
  Demo.sc_authors_file := "";
  Demo.sc_git_log := []
|}.

(** The installation [sc] with a virtual display that cannot be shut
    down. *)
Definition display_fails (sc : Demo.Scenario) : Externals unit := {|
  DJANGO_1_5 := Demo.sc_django_1_5 sc;
  DJANGO_1_6 := Demo.sc_django_1_6 sc;
  docopt := λ _ argv, Demo.parse argv;
  import_module := λ name e,
    (Ret {| mod_name := name; mod_version := "0.1" |}, e);
  _make_settings := λ _ _ _ _ e, (Ret tt, e);
  load_from_file := λ _ e, (Demo.sc_migration sc, e);
  iter_modules := λ _ _, Demo.sc_modules sc;
  readmodule := λ name e,
    (Ret (Demo.sc_tree sc (String.substring 10 (String.length name) name)), e);
  run_tests := λ _ _ _ e, (Ret (Demo.sc_failures sc), e);
  call_command := λ _ e, (Ret tt, e);
  import_pyflakes := λ e, (Demo.sc_cms sc, e);
  pyflakes := λ _ e, (Ret (Demo.sc_issues sc), e);
  import_xvfbwrapper := λ e, (Ret tt, e);
  xvfb_start := λ e, (Ret tt, e);
  xvfb_stop := λ e, (Raise OSError, e);
  popen_readlines := λ _ e, (Ret (Demo.sc_git_log sc), e);
  open_readlines := λ _ e, (Ret (Py.readlines (Demo.sc_authors_file sc)), e)
|}.

(** [<application> test --xvfb <test-label>...] *)
Definition xvfb_invocation (application : string) (labels : list string) : Args :=
  {| arg_application := application;
     arg_test := true; arg_shell := false; arg_compilemessages := false;
     arg_makemessages := false; arg_makemigrations := false;
     arg_pyflakes := false; arg_authors := false;
     arg_failfast := false; arg_migrate := false;
     arg_test_label := labels; arg_xvfb := true;
     arg_runner := None; arg_extra_settings := None; arg_cms := false |}.

End Faulty.

(** * Properties *)

(** ** The built-ins on examples *)

Example lower_Alice : Py.lower "Alice B." = "alice b.".
Proof. reflexivity. Qed.

Example strip_star_line :
  Py.strip_chars ["*"; " "; Py.newline]%char ("* Alice *" +:+ nl) = "Alice".
Proof. reflexivity. Qed.

Example strip_log_line : Py.strip ("  Carol D " +:+ nl) = "Carol D".
Proof. reflexivity. Qed.

Example readlines_two :
  Py.readlines ("* Alice" +:+ nl +:+ "* bob") = ["* Alice" +:+ nl; "* bob"].
Proof. reflexivity. Qed.

Example sorted_by_code_point :
  Py.sorted ["b"; "a"; "B"; "ab"; ""] = [""; "B"; "a"; "ab"; "b"].
Proof. vm_compute. reflexivity. Qed.

Example sorted_by_is_stable :
  Py.sorted_by Py.lower ["b"; "A"; "a"; "B"] = ["A"; "a"; "b"; "B"]
  ∧ Py.sorted_by Py.lower ["x"; "X"; "x"] = ["x"; "X"; "x"]
  ∧ Py.sorted_by Py.lower ["X"; "x"; "X"] = ["X"; "x"; "X"].
Proof. vm_compute. done. Qed.

(** ** Effects of a statement *)

Section Emits.
Context {W : Type}.
Implicit Types P : Event → Prop.

Lemma emits_ret {A} P (a : A) : emits P (mret a : M W A).
Proof. intros s. exists []. by rewrite app_nil_r. Qed.

Lemma emits_raise {A} P e : emits P (raise e : M W A).
Proof. intros s. exists []. by rewrite app_nil_r. Qed.

Lemma emits_sys_exit {A} P code : emits P (sys_exit code : M W A).
Proof. apply emits_raise. Qed.

Lemma emits_lift {A} P (r : outcome A) : emits P (lift r : M W A).
Proof. intros s. exists []. by rewrite app_nil_r. Qed.

Lemma emits_get_env P : emits P (get_env : M W (Env W)).
Proof. intros s. exists []. by rewrite app_nil_r. Qed.

Lemma emits_call {A} P (f : Ext W A) : emits P (call f).
Proof.
  intros s. exists []. unfold call. destruct (f (env s)).
  by rewrite app_nil_r.
Qed.

Lemma emits_emit P ev : P ev → emits P (emit ev : M W unit).
Proof. intros Hev s. exists [ev]. split; [done|]. by constructor. Qed.

Lemma emits_observe {A} P (ev : outcome A → Event) (f : Ext W A) :
  (∀ r, P (ev r)) → emits P (observe ev f).
Proof.
  intros Hev s. unfold observe. destruct (f (env s)) as [r e'].
  exists [ev r]. split; [done|]. by constructor.
Qed.

Lemma emits_bind {A B} P (m : M W A) (k : A → M W B) :
  emits P m → (∀ a, emits P (k a)) → emits P (m ≫= k).
Proof.
  intros Hm Hk s. unfold mbind, M_bind, bind.
  destruct (Hm s) as (evs1 & Ht1 & HP1).
  destruct (m s) as [[a|e] s1]; simpl in *.
  - destruct (Hk a s1) as (evs2 & Ht2 & HP2).
    exists (evs1 ++ evs2). split.
    + by rewrite Ht2, Ht1, app_assoc.
    + by apply Forall_app.
  - by exists evs1.
Qed.

Lemma emits_bind_returns {A B} P (m : M W A) (k : A → M W B) :
  emits P m → (∀ a, returns m a → emits P (k a)) → emits P (m ≫= k).
Proof.
  intros Hm Hk s. unfold mbind, M_bind, bind.
  destruct (Hm s) as (evs1 & Ht1 & HP1).
  destruct (m s) as [[a|e] s1] eqn:Hms; simpl in *.
  - destruct (Hk a (ex_intro _ s (ex_intro _ s1 Hms)) s1) as (evs2 & Ht2 & HP2).
    exists (evs1 ++ evs2). split.
    + by rewrite Ht2, Ht1, app_assoc.
    + by apply Forall_app.
  - by exists evs1.
Qed.

Lemma emits_weaken {A} P Q (m : M W A) :
  (∀ ev, P ev → Q ev) → emits P m → emits Q m.
Proof.
  intros HPQ Hm s. destruct (Hm s) as (evs & Ht & HP).
  exists evs. split; [done|]. eapply Forall_impl; eauto.
Qed.

Lemma emits_invoke {A} P ev (f : Ext W A) : P ev → emits P (invoke ev f).
Proof.
  intros Hev. unfold invoke. apply emits_bind.
  - by apply emits_emit.
  - intros _. apply emits_call.
Qed.

Lemma emits_try_except {A} P (m h : M W A) handles :
  emits P m → emits P h → emits P (try_except m handles h).
Proof.
  intros Hm Hh s. unfold try_except.
  destruct (Hm s) as (evs1 & Ht1 & HP1).
  destruct (m s) as [[a|e] s1]; simpl in *; [by exists evs1|].
  destruct (handles e); [|by exists evs1].
  destruct (Hh s1) as (evs2 & Ht2 & HP2).
  exists (evs1 ++ evs2). split.
  - by rewrite Ht2, Ht1, app_assoc.
  - by apply Forall_app.
Qed.

Lemma emits_try_finally {A} P (m : M W A) (c : M W unit) :
  emits P m → emits P c → emits P (try_finally m c).
Proof.
  intros Hm Hc s. unfold try_finally.
  destruct (Hm s) as (evs1 & Ht1 & HP1).
  destruct (m s) as [r s1]; simpl in *.
  destruct (Hc s1) as (evs2 & Ht2 & HP2).
  exists (evs1 ++ evs2). split.
  - destruct (c s1) as [[[]|e] s2]; simpl in *;
      by rewrite Ht2, Ht1, app_assoc.
  - by apply Forall_app.
Qed.

Lemma emits_with {A B} P (cm : ContextManager W A) (body : A → M W B) :
  emits P (cm_enter cm) → (∀ x, emits P (cm_exit cm x)) →
  (∀ x, emits P (body x)) → emits P (with_ cm body).
Proof.
  intros He Hx Hb. unfold with_. apply emits_bind; [done|].
  intros x. by apply emits_try_finally.
Qed.

Lemma emits_chdir P d : P (EvChdir d) → emits P (chdir d : M W unit).
Proof. intros Hev s. exists [EvChdir d]. split; [done|]. by constructor. Qed.

Lemma emits_mkdtemp P :
  (∀ d, P (EvMkdtemp d)) → emits P (mkdtemp : M W path).
Proof. intros Hev s. eexists [_]. split; [done|]. by constructor. Qed.

Lemma emits_rmtree P d : P (EvRmtree d) → emits P (rmtree d : M W unit).
Proof. intros Hev s. exists [EvRmtree d]. split; [done|]. by constructor. Qed.

Lemma emits_environ_setdefault P k v :
  P (EvSetdefault k v) → emits P (environ_setdefault k v : M W unit).
Proof.
  intros Hev s. exists [EvSetdefault k v]. split; [done|]. by constructor.
Qed.

Lemma emits_work_in P dirname (body : path → M W unit) :
  (∀ d, P (EvChdir d)) → (∀ x, emits P (body x)) →
  emits P (with_ (work_in dirname) body).
Proof.
  intros Hev Hb. apply emits_with; simpl; [|intros; by apply emits_chdir|done].
  apply emits_bind; [apply emits_get_env|]. intros e.
  apply emits_bind; [by apply emits_chdir|]. intros _. apply emits_ret.
Qed.

End Emits.

(** Decompose a statement into its primitive effects. *)
Ltac emits_step :=
  match goal with
  | |- emits _ (mret _) => apply emits_ret
  | |- emits _ (raise _) => apply emits_raise
  | |- emits _ (sys_exit _) => apply emits_sys_exit
  | |- emits _ (lift _) => apply emits_lift
  | |- emits _ get_env => apply emits_get_env
  | |- emits _ (call _) => apply emits_call
  | |- emits _ (emit _) => apply emits_emit
  | |- emits _ filterwarnings => apply emits_emit
  | |- emits _ (print _) => apply emits_emit
  | |- emits _ (observe _ _) => apply emits_observe; intros
  | |- emits _ (invoke _ _) => apply emits_invoke
  | |- emits _ (environ_setdefault _ _) => apply emits_environ_setdefault
  | |- emits _ (_ ≫= _) => apply emits_bind; [|intros]
  | |- emits _ (try_except _ _ _) => apply emits_try_except
  | |- emits _ (with_ (work_in _) _) => apply emits_work_in; intros
  | |- emits _ (if ?b then _ else _) => destruct b
  | |- emits _ (match ?x with _ => _ end) => destruct x
  end.

(** ** Effects of the handlers *)

Section HandlerEffects.
Context {W : Type} (X : Externals W).

Lemma modules_loop_emits P application modules test_labels :
  (∀ name, P (EvReadModule name)) →
  emits P (modules_loop X application modules test_labels).
Proof.
  intros HP. revert test_labels.
  induction modules as [|module modules IH]; intros test_labels; simpl.
  - apply emits_ret.
  - apply emits_bind; [by apply emits_invoke|]. intros clsmembers. apply IH.
Qed.

Lemma _get_test_labels_emits P application :
  (∀ dir, P (EvIterModules dir)) → (∀ name, P (EvReadModule name)) →
  emits P (_get_test_labels X application).
Proof.
  intros Hdir Hmod. unfold _get_test_labels.
  apply emits_bind; [by apply emits_emit|]. intros _.
  apply emits_bind; [apply emits_get_env|]. intros e.
  apply emits_bind; [by apply modules_loop_emits|]. intros labels.
  apply emits_ret.
Qed.

Lemma _test_run_worker_emits P test_labels failfast test_runner :
  P EvFilterWarnings →
  (∀ result, P (EvRunTests test_runner failfast test_labels result)) →
  emits P (_test_run_worker X test_labels failfast test_runner).
Proof.
  intros Hw Hr. unfold _test_run_worker. repeat emits_step; auto.
Qed.

Lemma test_emits test_labels application failfast test_runner :
  emits handler_event (test X test_labels application failfast test_runner).
Proof.
  unfold test. apply emits_bind.
  - destruct (Py.truthy test_labels); [apply emits_ret|].
    by apply _get_test_labels_emits.
  - intros labels. by apply _test_run_worker_emits.
Qed.

Lemma shell_emits : emits handler_event (shell X).
Proof. unfold shell. repeat emits_step. by split. Qed.

Lemma compilemessages_emits application :
  emits handler_event (compilemessages X application).
Proof. unfold compilemessages. repeat emits_step; by split. Qed.

Lemma makemessages_emits application :
  emits handler_event (makemessages X application).
Proof. unfold makemessages. repeat emits_step; by split. Qed.

Lemma makemigrations_emits application :
  emits handler_event (makemigrations X application).
Proof. unfold makemigrations. repeat emits_step; by split. Qed.

Lemma static_analisys_emits application :
  emits handler_event (static_analisys X application).
Proof. unfold static_analisys. repeat emits_step; by split. Qed.

Lemma generate_authors_emits : emits handler_event (generate_authors X).
Proof. unfold generate_authors. repeat emits_step; by split. Qed.

Lemma core_block_emits args application STATIC_ROOT MEDIA_ROOT :
  emits handler_event (core_block X args application STATIC_ROOT MEDIA_ROOT).
Proof.
  unfold core_block. apply emits_bind; [by apply emits_invoke|]. intros _.
  destruct (arg_test args).
  - apply emits_bind; [by apply emits_environ_setdefault|]. intros _.
    apply emits_bind_returns.
    { destruct (arg_xvfb args); repeat emits_step. }
    intros context (s & s' & Hctx).
    assert (context = Xvfb X ∨ context = null_context) as [-> | ->].
    { destruct (arg_xvfb args); [left|right].
      - unfold mbind, M_bind, bind, call in Hctx.
        destruct (import_xvfbwrapper X (env s)) as [[[]|e] e']; by inversion Hctx.
      - by inversion Hctx. }
    + apply emits_with; [apply emits_call|intros; apply emits_call|].
      intros _. apply emits_bind; [apply test_emits|]. intros; emits_step.
    + apply emits_with; [apply emits_ret|intros; apply emits_ret|].
      intros _. apply emits_bind; [apply test_emits|]. intros; emits_step.
  - destruct (arg_shell args); [apply shell_emits|].
    destruct (arg_compilemessages args); [apply compilemessages_emits|].
    destruct (arg_makemessages args); [apply makemessages_emits|].
    destruct (arg_makemigrations args); [apply makemigrations_emits|].
    destruct (arg_pyflakes args); [apply static_analisys_emits|].
    destruct (arg_authors args); [apply generate_authors_emits|].
    apply emits_ret.
Qed.

End HandlerEffects.

(** ** Scoped temporary directories *)

Section TempDirs.
Context {W : Type}.

(** A freshly named directory is not on disk, and nothing is below it. *)
Lemma fresh_dir_gone (dk : gset path) : gone (new_dir dk) dk.
Proof.
  unfold new_dir. intros p Hp [k Hk].
  apply (infinite_is_fresh (used_names dk)).
  unfold used_names. apply list_elem_of_join.
  exists p. split; [|by apply elem_of_elements].
  rewrite Hk. set_solver.
Qed.

(** After [rmtree d], [d] is gone. *)
Lemma rmtree_gone (d : path) (s : State W) :
  gone d (disk (env (rmtree d s).2)).
Proof. intros p Hp. simpl in Hp. by apply elem_of_filter in Hp as [? _]. Qed.

(** [rmtree] only removes: what was gone stays gone. *)
Lemma rmtree_keeps_gone (d d' : path) (s : State W) :
  gone d' (disk (env s)) → gone d' (disk (env (rmtree d s).2)).
Proof.
  intros Hgone p Hp. simpl in Hp. apply elem_of_filter in Hp as [_ Hp].
  by apply Hgone.
Qed.

(** A [with temp_dir()] statement: create, run the body, remove. *)
Lemma with_temp_dir_run {B} (body : path → M W B) (s : State W) :
  let d := new_dir (disk (env s)) in
  let after := body d (mkdtemp s).2 in
  with_ temp_dir body s = (after.1, (rmtree d after.2).2).
Proof.
  unfold with_, mbind, M_bind, bind, try_finally. simpl.
  by destruct (body _ _) as [r s'].
Qed.

(** A statement that only records an effect always goes on. *)
Lemma emit_then_run {B} ev (m : M W B) (s : State W) :
  (emit ev;; m) s = m (emit ev s).2.
Proof. done. Qed.

(** Effects that leave the temporary directories alone create none. *)
Lemma quiet_creates_nothing evs :
  Forall no_tempdir_event evs → created_dirs evs = [].
Proof.
  unfold created_dirs. induction 1 as [|ev evs Hev _ IH]; [done|].
  cbn [omap list_omap]. rewrite IH. by destruct ev.
Qed.

(** A directory that is on disk is not gone. *)
Lemma gone_not_elem (d : path) (dk : gset path) : gone d dk → d ∉ dk.
Proof. intros Hgone Hd. by apply (Hgone d Hd). Qed.

End TempDirs.

(** C1.  Whatever the command line asks for and however the libraries
    behave, [core] creates exactly two temporary directories, the static
    root and then the media root, both new; and when [core] completes, by
    returning, by an exception of configuration assembly or of the handler,
    or by [SystemExit] out of the test run, the last two things it has done
    are to remove the media root and the static root, and neither directory
    nor anything below them is on disk. *)
Theorem core_removes_temp_dirs {W} (X : Externals W) (args : Args)
    (application : string) (s : State W) :
  ∃ STATIC_ROOT MEDIA_ROOT evs,
    trace (core X args application s).2
      = trace s ++ [EvFilterWarnings; EvMkdtemp STATIC_ROOT; EvMkdtemp MEDIA_ROOT]
                ++ evs ++ [EvRmtree MEDIA_ROOT; EvRmtree STATIC_ROOT]
    ∧ Forall no_tempdir_event evs
    ∧ created_dirs ([EvFilterWarnings; EvMkdtemp STATIC_ROOT; EvMkdtemp MEDIA_ROOT]
                    ++ evs ++ [EvRmtree MEDIA_ROOT; EvRmtree STATIC_ROOT])
      = [STATIC_ROOT; MEDIA_ROOT]
    ∧ STATIC_ROOT ≠ MEDIA_ROOT
    ∧ gone STATIC_ROOT (disk (env s))
    ∧ gone MEDIA_ROOT (disk (env s))
    ∧ gone STATIC_ROOT (disk (env (core X args application s).2))
    ∧ gone MEDIA_ROOT (disk (env (core X args application s).2)).
Proof.
  set (s0 := (filterwarnings s).2).
  set (STATIC_ROOT := new_dir (disk (env s0))).
  set (s1 := (mkdtemp s0).2).
  set (MEDIA_ROOT := new_dir (disk (env s1))).
  set (s2 := (mkdtemp s1).2).
  destruct (core_block_emits X args application STATIC_ROOT MEDIA_ROOT s2)
    as (evs & Hevs & Hall).
  set (s3 := (core_block X args application STATIC_ROOT MEDIA_ROOT s2).2) in *.
  assert ((core X args application s).2
          = (rmtree STATIC_ROOT (rmtree MEDIA_ROOT s3).2).2) as ->.
  { unfold core, filterwarnings. rewrite emit_then_run.
    rewrite with_temp_dir_run. cbn [fst snd].
    by rewrite with_temp_dir_run. }
  exists STATIC_ROOT, MEDIA_ROOT, evs. split_and!.
  - cbn [rmtree trace snd]. rewrite Hevs. simpl. by rewrite <- !app_assoc.
  - eapply Forall_impl; [exact Hall|]. by intros ev [? _].
  - unfold created_dirs. cbn [app omap list_omap]. do 2 f_equal.
    rewrite omap_app. cbn [omap list_omap]. rewrite app_nil_r.
    apply quiet_creates_nothing.
    eapply Forall_impl; [exact Hall|]. by intros ev [? _].
  - intros Heq.
    assert (MEDIA_ROOT ∈ disk (env s1)) as Hin.
    { rewrite <- Heq. simpl. set_solver. }
    by apply (gone_not_elem _ _ (fresh_dir_gone (disk (env s1)))) in Hin.
  - apply fresh_dir_gone.
  - intros p Hp. apply (fresh_dir_gone (disk (env s1))). simpl. set_solver.
  - apply rmtree_gone.
  - apply rmtree_keeps_gone, rmtree_gone.
Qed.

(** ** Sorting *)

Section Sorting.
Context {A : Type} (key : A → string).

Global Instance key_le_trans : Transitive (Py.key_le key).
Proof. intros x y z. unfold Py.key_le. apply transitivity. Qed.

Global Instance key_le_total : Total (Py.key_le key).
Proof. intros x y. unfold Py.key_le. apply total, _. Qed.

Lemma insert_by_perm x l : Py.insert_by key x l ≡ₚ x :: l.
Proof.
  induction l as [|y l IH]; [done|]. cbn [Py.insert_by].
  destruct (decide (Py.key_le key x y)); [done|].
  rewrite IH. apply Permutation_swap.
Qed.

Lemma insert_by_sorted x l :
  StronglySorted (Py.key_le key) l →
  StronglySorted (Py.key_le key) (Py.insert_by key x l).
Proof.
  induction 1 as [|y l Hl IH Hall]; cbn [Py.insert_by].
  - repeat constructor.
  - destruct (decide (Py.key_le key x y)) as [Hxy|Hxy].
    + constructor; [by constructor|]. constructor; [done|].
      eapply Forall_impl; [exact Hall|]. intros z Hz. by transitivity y.
    + constructor; [done|]. rewrite insert_by_perm. constructor; [|done].
      by destruct (total (Py.key_le key) x y).
Qed.

Lemma sorted_by_sorted l : StronglySorted (Py.key_le key) (Py.sorted_by key l).
Proof.
  induction l as [|x l IH]; [constructor|]. by apply insert_by_sorted.
Qed.

Lemma sorted_by_perm l : Py.sorted_by key l ≡ₚ l.
Proof.
  induction l as [|x l IH]; [done|].
  cbn [Py.sorted_by foldr]. rewrite insert_by_perm. by f_equiv.
Qed.

End Sorting.

Lemma sorted_sorted l : StronglySorted String.le (Py.sorted l).
Proof. apply StronglySorted_merge_sort; apply _. Qed.

Lemma sorted_perm l : Py.sorted l ≡ₚ l.
Proof. apply merge_sort_Permutation. Qed.

(** ** Authors *)

Section Authors.

(** Deduplication commutes with a selection that ignores case. *)
Lemma dedup_ci_filter (Q : string → Prop) `{!∀ x, Decision (Q x)} names :
  (∀ b c, Py.lower b = Py.lower c → Q b → Q c) →
  filter Q (dedup_ci names) = dedup_ci (filter Q names).
Proof.
  intros HQ. induction names as [|a names IH]; [done|].
  cbn [dedup_ci foldr]. fold (dedup_ci names).
  destruct (decide (Q a)) as [Ha|Ha].
  - rewrite !filter_cons_True by done.
    cbn [dedup_ci foldr]. fold (dedup_ci (filter Q names)).
    f_equal. rewrite <- IH.
    rewrite !list_filter_filter. apply list_filter_iff. intros b. tauto.
  - rewrite !filter_cons_False by done.
    rewrite <- IH. rewrite list_filter_filter.
    apply list_filter_iff. intros b. split; [tauto|].
    intros Hb. split; [done|]. intros Heq. apply Ha. by apply (HQ b).
Qed.

(** The names kept are pairwise different, compared without case. *)
Lemma dedup_ci_NoDup names : NoDup (Py.lower <$> dedup_ci names).
Proof.
  induction names as [|a names IH]; [constructor|].
  cbn [dedup_ci foldr]. fold (dedup_ci names).
  rewrite fmap_cons. constructor.
  - intros (b & Hb & Hin)%list_elem_of_fmap.
    apply list_elem_of_filter in Hin as [Hne _]. by apply Hne.
  - revert IH. generalize (dedup_ci names). intros l.
    induction l as [|b l IHl]; [done|]. intros Hnd.
    rewrite fmap_cons in Hnd. apply NoDup_cons in Hnd as [Hb Hnd].
    destruct (decide (Py.lower b ≠ Py.lower a)).
    + rewrite filter_cons_True by done. rewrite fmap_cons.
      constructor; [|by apply IHl].
      intros (c & Hc & Hin)%list_elem_of_fmap.
      apply list_elem_of_filter in Hin as [_ Hin].
      apply Hb, list_elem_of_fmap. eauto.
    + rewrite filter_cons_False by done. by apply IHl.
Qed.

(** The loop of [generate_authors] over names already stripped. *)
Lemma add_author_loop names authors :
  foldl add_author (Py.lower <$> authors, authors) names
  = let authors' :=
      authors ++ dedup_ci (filter (λ a, Py.lower a ∉ Py.lower <$> authors) names)
    in (Py.lower <$> authors', authors').
Proof.
  revert authors. induction names as [|a names IH]; intros authors.
  - simpl. by rewrite app_nil_r.
  - cbn [foldl]. unfold add_author at 2. cbn [fst snd].
    case_bool_decide as Hseen.
    + rewrite IH. by rewrite (filter_cons_False _ a) by tauto.
    + rewrite <- fmap_snoc, IH. cbn zeta.
      rewrite (filter_cons_True _ a) by done.
      cbn [dedup_ci foldr].
      fold (dedup_ci (filter (λ a0, Py.lower a0 ∉ Py.lower <$> authors) names)).
      rewrite dedup_ci_filter by (by intros b c ->).
      rewrite list_filter_filter.
      assert (filter (λ a0, Py.lower a0 ∉ Py.lower <$> authors ++ [a]) names
              = filter (λ a0, Py.lower a0 ≠ Py.lower a
                              ∧ Py.lower a0 ∉ Py.lower <$> authors) names) as ->.
      { apply list_filter_iff. intros b.
        rewrite fmap_app, not_elem_of_app. cbn [fmap list_fmap].
        rewrite list_elem_of_singleton. tauto. }
      by rewrite <- app_assoc.
Qed.

(** The loop over the lines of the AUTHORS file. *)
Lemma file_line_loop file_lines st :
  foldl file_line st file_lines = foldl add_author st (file_authors file_lines).
Proof.
  revert st. induction file_lines as [|line file_lines IH]; intros st; [done|].
  cbn [foldl]. unfold file_line at 2, file_authors.
  destruct (Py.startswith line "*") eqn:Hstar.
  - rewrite filter_cons_True by done. rewrite fmap_cons. cbn [foldl]. apply IH.
  - rewrite filter_cons_False by (by rewrite Hstar). apply IH.
Qed.

(** The loop over the lines of the log. *)
Lemma log_line_loop log_lines st :
  foldl log_line st log_lines = foldl add_author st (log_authors log_lines).
Proof.
  revert st. induction log_lines as [|line log_lines IH]; intros st; [done|].
  cbn [foldl]. unfold log_authors. rewrite fmap_cons. cbn [foldl]. apply IH.
Qed.

(** The two loops together keep the first occurrences. *)
Lemma authors_loops file_lines log_lines :
  (foldl log_line (foldl file_line ([], []) file_lines) log_lines).2
  = dedup_ci (file_authors file_lines ++ log_authors log_lines).
Proof.
  rewrite file_line_loop, log_line_loop, <- foldl_app.
  rewrite (add_author_loop _ []). cbn [snd app fmap list_fmap].
  f_equal. generalize (file_authors file_lines ++ log_authors log_lines).
  intros l. induction l as [|a l IH]; [done|].
  rewrite filter_cons_True by apply not_elem_of_nil. by rewrite IH.
Qed.

End Authors.

(** C3.  For every content of the AUTHORS file and every output of the
    author log, the list [generate_authors] builds is the design document's:
    file authors first, then log authors, deduplicated without regard to
    case with the first casing kept, sorted without regard to case.  It is
    sorted by lower-cased name and no two members agree up to case.  For the
    file with the lines [* Alice] and [* bob] and the log [Carol], [alice]
    it is [Alice], [bob], [Carol], and that is what the operation prints. *)
Theorem generate_authors_merges :
  (∀ file_lines log_lines,
     authors_list file_lines log_lines = authors_spec file_lines log_lines
     ∧ StronglySorted (Py.key_le Py.lower) (authors_list file_lines log_lines)
     ∧ NoDup (Py.lower <$> authors_list file_lines log_lines))
  ∧ authors_list (Py.readlines ("* Alice" +:+ nl +:+ "* bob" +:+ nl))
                 ["Carol" +:+ nl; "alice" +:+ nl]
    = ["Alice"; "bob"; "Carol"]
  ∧ authors_list ["* Alice"; "* bob"] ["Carol"; "alice"] = ["Alice"; "bob"; "Carol"]
  ∧ (∀ {W} (X : Externals W) (s : State W) file_lines log_lines e1 e2,
       popen_readlines X ["git"; "log"; "--use-mailmap"; "--format=%aN"] (env s)
         = (Ret log_lines, e1) →
       open_readlines X "AUTHORS" e1 = (Ret file_lines, e2) →
       generate_authors X s
       = (Ret tt,
          {| trace := trace s ++
               [EvPrint "Generating AUTHORS"; EvPrint "Collecting author names";
                EvPopen ["git"; "log"; "--use-mailmap"; "--format=%aN"];
                EvOpen "AUTHORS";
                EvPrint (authors_report (authors_list file_lines log_lines))];
             env := e2 |})).
Proof.
  split_and!.
  - intros file_lines log_lines.
    assert (authors_list file_lines log_lines = authors_spec file_lines log_lines)
      as Heq.
    { unfold authors_list, authors_spec. by rewrite authors_loops. }
    split_and!; [done|apply sorted_by_sorted|].
    rewrite Heq. unfold authors_spec. rewrite sorted_by_perm.
    apply dedup_ci_NoDup.
  - vm_compute. reflexivity.
  - vm_compute. reflexivity.
  - intros W X s file_lines log_lines e1 e2 Hlog Hfile.
    unfold generate_authors, print, invoke, call, emit, mbind, M_bind, bind.
    simpl. rewrite Hlog. simpl. rewrite Hfile.
    cbn [trace env]. by rewrite <- !app_assoc.
Qed.

Lemma generate_authors_merges_witness :
  generate_authors (Demo.externals Demo.base) Demo.start
  = (Ret tt,
     {| trace :=
          [EvPrint "Generating AUTHORS"; EvPrint "Collecting author names";
           EvPopen ["git"; "log"; "--use-mailmap"; "--format=%aN"];
           EvOpen "AUTHORS";
           EvPrint (authors_report ["Alice"; "bob"; "Carol"])];
        env := env Demo.start |}).
Proof.
  apply (proj2 (proj2 (proj2 generate_authors_merges)) unit
           (Demo.externals Demo.base) Demo.start
           (Py.readlines ("* Alice" +:+ nl +:+ "* bob" +:+ nl))
           ["Carol" +:+ nl; "alice" +:+ nl]
           (env Demo.start) (env Demo.start));
    reflexivity.
Defined.

(** ** Test discovery *)

Section Discovery.
Context {W : Type} (X : Externals W).

Lemma append_nil (t : string) : "" +:+ t = t.
Proof. done. Qed.

Lemma append_cons (a : ascii) (s t : string) :
  String a s +:+ t = String a (s +:+ t).
Proof. done. Qed.

(** A label determines the class and the method it was made from. *)
Lemma test_label_inj application c1 m1 c2 m2 :
  dotless c1 → dotless c2 →
  test_label application c1 m1 = test_label application c2 m2 →
  c1 = c2 ∧ m1 = m2.
Proof.
  unfold test_label. intros H1 H2 Heq.
  apply (inj (String.app application)) in Heq.
  apply (inj (String.app ".")) in Heq.
  revert c2 H1 H2 Heq. induction c1 as [|a c1 IH]; intros [|b c2] H1 H2 Heq.
  - rewrite !append_nil in Heq. by apply (inj (String.app ".")) in Heq.
  - rewrite append_nil, append_cons in Heq. injection Heq as <- _.
    by destruct H2.
  - rewrite append_nil, append_cons in Heq. injection Heq as -> _.
    by destruct H1.
  - rewrite !append_cons in Heq. injection Heq as -> Heq.
    destruct H1 as [_ H1], H2 as [_ H2].
    destruct (IH c2 H1 H2 Heq) as [-> ->]. done.
Qed.

(** The loop over the methods appends the labels of the test methods. *)
Lemma class_loop_labels application clsname cls test_labels :
  class_loop application clsname cls test_labels
  = test_labels ++ (test_label application clsname <$> test_methods cls).
Proof.
  unfold class_loop, test_methods.
  generalize (map_to_list (cls_methods cls)). intros items. revert test_labels.
  induction items as [|[method line] items IH]; intros test_labels.
  - simpl. by rewrite app_nil_r.
  - cbn [foldl fst]. rewrite IH. rewrite fmap_cons. cbn [fst].
    destruct (Py.startswith method "test_") eqn:Htest.
    + rewrite filter_cons_True by done. rewrite fmap_cons.
      by rewrite <- app_assoc.
    + rewrite filter_cons_False; [done|]. unfold is_test_method.
      by rewrite Htest.
Qed.

(** The loop over the classes appends the labels of their test methods. *)
Lemma module_loop_labels application clsmembers test_labels :
  module_loop application clsmembers test_labels
  = test_labels
    ++ ((λ cm, test_label application cm.1 cm.2) <$> module_tests clsmembers).
Proof.
  unfold module_loop, module_tests.
  generalize (map_to_list clsmembers). intros items. revert test_labels.
  induction items as [|[clsname cls] items IH]; intros test_labels.
  - simpl. by rewrite app_nil_r.
  - cbn [foldl fst snd]. rewrite IH, class_loop_labels.
    rewrite bind_cons, fmap_app, <- app_assoc. cbn [fst snd].
    by rewrite <- list_fmap_compose.
Qed.

(** The loop over the modules of a readable tree. *)
Lemma modules_loop_labels application tree all modules test_labels s :
  reads_tree X application all tree → modules ⊆ all →
  modules_loop X application modules test_labels s
  = (Ret (test_labels ++ tree_labels application tree modules),
     {| trace := trace s ++ read_events application modules; env := env s |}).
Proof.
  intros [_ Hread]. revert test_labels s.
  induction modules as [|module modules IH]; intros test_labels s Hsub.
  - simpl. rewrite !app_nil_r. by destruct s.
  - cbn [modules_loop]. unfold invoke, call, emit, mbind, M_bind, bind.
    cbn [env trace]. rewrite Hread by (apply Hsub; left).
    rewrite IH by (intros m Hm; apply Hsub; by right).
    cbn [env trace]. rewrite module_loop_labels.
    unfold tree_labels. rewrite bind_cons.
    unfold read_events. rewrite fmap_cons.
    by rewrite <- !app_assoc.
Qed.

(** Discovery on a readable tree. *)
Lemma _get_test_labels_run application modules tree s :
  reads_tree X application modules tree →
  _get_test_labels X application s
  = (Ret (Py.sorted (tree_labels application tree modules)),
     {| trace := trace s ++ EvIterModules (os_path_join [application; "tests"])
                             :: read_events application modules;
        env := env s |}).
Proof.
  intros Htree. unfold _get_test_labels, emit, get_env, mbind, M_bind, bind.
  cbn [env trace]. rewrite (proj1 Htree).
  rewrite (modules_loop_labels _ tree modules) by done.
  cbn [env trace]. unfold mret, M_ret, ret. by rewrite <- app_assoc.
Qed.

(** The test methods of a class are the methods with the prefix. *)
Lemma elem_of_test_methods cls method :
  method ∈ test_methods cls
  ↔ is_Some (cls_methods cls !! method) ∧ Py.startswith method "test_" = true.
Proof.
  unfold test_methods. rewrite list_elem_of_filter, list_elem_of_fmap.
  unfold is_test_method. split.
  - intros [Htest ([m line] & -> & Hin)]. split; [|done].
    apply elem_of_map_to_list in Hin. by exists line.
  - intros [[line Hline] Htest]. split; [done|].
    exists (method, line). split; [done|]. by apply elem_of_map_to_list.
Qed.

(** The tests of a module are the test methods of its classes. *)
Lemma elem_of_module_tests clsmembers clsname method :
  (clsname, method) ∈ module_tests clsmembers
  ↔ ∃ cls, clsmembers !! clsname = Some cls ∧ method ∈ test_methods cls.
Proof.
  unfold module_tests. rewrite list_elem_of_bind. split.
  - intros ([c cls] & Hin & Hitem). cbn [fst snd] in Hin.
    apply list_elem_of_fmap in Hin as (m & [= -> ->] & Hm).
    exists cls. split; [|done]. by apply elem_of_map_to_list.
  - intros (cls & Hcls & Hm). exists (clsname, cls). split.
    + cbn [fst snd]. apply list_elem_of_fmap. by exists method.
    + by apply elem_of_map_to_list.
Qed.

(** A module yields each of its tests once. *)
Lemma module_tests_NoDup clsmembers : NoDup (module_tests clsmembers).
Proof.
  unfold module_tests. apply NoDup_bind.
  - intros [c1 cls1] [c2 cls2] [c m] Hin1 Hin2 Hy1 Hy2. cbn [fst snd] in *.
    apply list_elem_of_fmap in Hy1 as (? & [= -> ->] & _).
    apply list_elem_of_fmap in Hy2 as (? & [= -> _] & _).
    apply elem_of_map_to_list in Hin1, Hin2. congruence.
  - intros [c cls] _. cbn [fst snd].
    apply NoDup_fmap_2; [by intros ?? [= ->]|].
    unfold test_methods. apply NoDup_filter, NoDup_fst_map_to_list.
  - apply NoDup_map_to_list.
Qed.

(** Without a class and test method shared between modules, every label
    of the tree is there once. *)
Lemma tree_labels_NoDup application tree modules :
  NoDup modules → class_names_dotless tree modules →
  tests_disjoint tree modules →
  NoDup (tree_labels application tree modules).
Proof.
  intros Hmods Hdot Hdisj.
  assert (∀ m cm1 cm2 m', m ∈ modules → m' ∈ modules →
            cm1 ∈ module_tests (tree m) → cm2 ∈ module_tests (tree m') →
            test_label application cm1.1 cm1.2
            = test_label application cm2.1 cm2.2 → cm1 = cm2) as Hinj.
  { intros m [c1 m1] [c2 m2] m' Hm Hm' Hin1 Hin2 Heq. cbn [fst snd] in Heq.
    apply elem_of_module_tests in Hin1 as (cls1 & Hc1 & _).
    apply elem_of_module_tests in Hin2 as (cls2 & Hc2 & _).
    apply test_label_inj in Heq as [-> ->]; [done|..].
    - by apply (Hdot m).
    - by apply (Hdot m'). }
  unfold tree_labels. apply NoDup_bind; [| |done].
  - intros m1 m2 y Hm1 Hm2 Hy1 Hy2.
    apply list_elem_of_fmap in Hy1 as (cm1 & -> & Hcm1).
    apply list_elem_of_fmap in Hy2 as (cm2 & Heq & Hcm2).
    destruct (decide (m1 = m2)) as [|Hne]; [done|].
    apply (Hinj m1 cm1 cm2 m2) in Heq; [|done..]. subst cm2.
    by destruct (Hdisj m1 m2 cm1).
  - intros m Hm. apply NoDup_fmap_2_strong; [|apply module_tests_NoDup].
    intros cm1 cm2 Hcm1 Hcm2 Heq. by apply (Hinj m cm1 cm2 m).
Qed.

(** A label of the tree comes from a test method of a class of a module. *)
Lemma elem_of_tree_labels application tree modules label :
  label ∈ tree_labels application tree modules
  ↔ ∃ module clsname cls method line,
      module ∈ modules ∧ tree module !! clsname = Some cls
      ∧ cls_methods cls !! method = Some line
      ∧ Py.startswith method "test_" = true
      ∧ label = test_label application clsname method.
Proof.
  unfold tree_labels. rewrite list_elem_of_bind. split.
  - intros (module & Hin & Hmod).
    apply list_elem_of_fmap in Hin as ([c m] & -> & Hcm).
    apply elem_of_module_tests in Hcm as (cls & Hcls & Hm).
    apply elem_of_test_methods in Hm as [[line Hline] Htest].
    by exists module, c, cls, m, line.
  - intros (module & c & cls & m & line & Hmod & Hcls & Hline & Htest & ->).
    exists module. split; [|done].
    apply list_elem_of_fmap. exists (c, m). split; [done|].
    apply elem_of_module_tests. exists cls. split; [done|].
    apply elem_of_test_methods. split; [by exists line|done].
Qed.

End Discovery.

(** The demo installations read their tree. *)
Lemma demo_reads_tree sc :
  (∀ module, module ∈ Demo.sc_modules sc → String.length module = 6%nat) →
  reads_tree (Demo.externals sc) "app" (Demo.sc_modules sc) (Demo.sc_tree sc).
Proof.
  intros Hlen. split; [done|]. intros module e Hin. simpl. do 2 f_equal.
  specialize (Hlen module Hin).
  destruct module as [|c1 [|c2 [|c3 [|c4 [|c5 [|c6 [|c7 module]]]]]]];
    by try discriminate Hlen.
Qed.

(** [startswith] is having the prefix. *)
Lemma prefix_append p s :
  String.prefix p s = true ↔ ∃ rest, s = p +:+ rest.
Proof.
  revert p. induction s as [|b s IH]; intros [|a p]; simpl.
  - split; [intros _; by exists ""|done].
  - split; [done|]. by intros [rest Hrest].
  - split; [intros _; by exists (String b s)|done].
  - destruct (Ascii.ascii_dec a b) as [->|Hne].
    + rewrite IH. split; intros [rest Hrest]; exists rest.
      * by rewrite Hrest.
      * by injection Hrest.
    + split; [done|]. intros [rest Hrest]. injection Hrest as Hab _. done.
Qed.

Lemma startswith_test_prefix method :
  Py.startswith method "test_" = true ↔ has_test_prefix method.
Proof. apply prefix_append. Qed.

(** The labels the loops collect are the labels asked for, in the same
    order. *)
Lemma tree_labels_expected application tree modules :
  tree_labels application tree modules
  = expected_labels application tree modules.
Proof.
  unfold tree_labels, expected_labels, module_tests, test_methods.
  apply list_bind_ext; [|done]. intros module.
  generalize (map_to_list (tree module)). intros classes.
  induction classes as [|[clsname cls] classes IH]; [done|].
  rewrite !bind_cons, fmap_app, IH. f_equal. cbn [fst snd].
  generalize (map_to_list (cls_methods cls)). intros methods.
  induction methods as [|[method line] methods IHm]; [done|].
  rewrite bind_cons, fmap_cons. cbn [fst].
  destruct (decide (has_test_prefix method)) as [Htest|Htest].
  - rewrite filter_cons_True by by apply startswith_test_prefix.
    rewrite !fmap_cons, IHm. done.
  - rewrite filter_cons_False; [done|].
    intros Hstart. by apply Htest, startswith_test_prefix.
Qed.

(** C7, as stated, fails: not for every application.  The first test
    module of the application holds a class [FooTest] with the method
    [test_x], but the third module cannot be read; discovery then ends
    with the error of reading it and returns no label at all. *)
Lemma unreadable_module_yields_no_label :
  iter_modules (Faulty.externals Faulty.three_modules Faulty.bad_module)
    ["app"; "tests"] (env Demo.start)
  = ["test_a"; "test_c"; "test_b"]
  ∧ readmodule (Faulty.externals Faulty.three_modules Faulty.bad_module)
      "app.tests.test_a" (env Demo.start)
    = (Ret {[ "FooTest" := Demo.FooTest ]}, env Demo.start)
  ∧ cls_methods Demo.FooTest !! "test_x" = Some 8%nat
  ∧ has_test_prefix "test_x"
  ∧ (_get_test_labels (Faulty.externals Faulty.three_modules Faulty.bad_module)
       "app" Demo.start).1
    = Raise ImportError
  ∧ ¬ ∃ labels s',
        _get_test_labels (Faulty.externals Faulty.three_modules Faulty.bad_module)
          "app" Demo.start
        = (Ret labels, s').
Proof.
  assert ((_get_test_labels
             (Faulty.externals Faulty.three_modules Faulty.bad_module)
             "app" Demo.start).1 = Raise ImportError) as Hrun
    by (vm_compute; reflexivity).
  split_and!; try reflexivity.
  - by exists "x".
  - intros (labels & s' & Hret). rewrite Hret in Hrun. discriminate Hrun.
Qed.

(** C7, amended.  When the test modules of the application can be
    enumerated and every one of them can be parsed, discovery returns the
    labels ["<application>.<ClassName>.<methodName>"] of the methods whose
    name starts with ["test_"], taken from the class dictionaries the parser
    returns for the modules: the result is a rearrangement of the list that
    holds one label for each such method of each class of each dictionary,
    it holds nothing for any other method, and it is in lexicographic
    order. *)
Theorem discovery_one_label_per_test_method {W} (X : Externals W)
    (application : string) (modules : list string)
    (tree : string → gmap string ClassDescr) (s : State W) :
  reads_tree X application modules tree →
  ∃ labels s',
    _get_test_labels X application s = (Ret labels, s')
    ∧ labels ≡ₚ expected_labels application tree modules
    ∧ (∀ label, label ∈ labels ↔
         ∃ module clsname cls method line,
           module ∈ modules ∧ tree module !! clsname = Some cls
           ∧ cls_methods cls !! method = Some line
           ∧ has_test_prefix method
           ∧ label = application +:+ "." +:+ clsname +:+ "." +:+ method)
    ∧ StronglySorted String.le labels.
Proof.
  intros Htree. eexists _, _. split; [by apply _get_test_labels_run|].
  split_and!.
  - rewrite sorted_perm. by rewrite tree_labels_expected.
  - intros label. rewrite sorted_perm, elem_of_tree_labels.
    unfold test_label.
    split; intros (module & c & cls & m & line & Hm & Hc & Hl & Ht & Heq);
      exists module, c, cls, m, line; split_and!; try done;
      by apply startswith_test_prefix.
  - apply sorted_sorted.
Qed.

Lemma discovery_one_label_per_test_method_witness :
  ∃ labels s',
    _get_test_labels (Demo.externals Faulty.two_classes) "app" Demo.start
    = (Ret labels, s')
    ∧ labels
      = ["app.BarTest.test_x"; "app.FooTest.test_x"; "app.FooTest.test_y"]
    ∧ labels ≡ₚ expected_labels "app" Faulty.distinct_tree ["test_b"; "test_a"]
    ∧ ("app.FooTest.setUp" ∉ labels)
    ∧ ("app.BarTest.testing" ∉ labels)
    ∧ (∀ label, label ∈ labels ↔
         ∃ module clsname cls method line,
           module ∈ ["test_b"; "test_a"]
           ∧ Faulty.distinct_tree module !! clsname = Some cls
           ∧ cls_methods cls !! method = Some line
           ∧ has_test_prefix method
           ∧ label = "app" +:+ "." +:+ clsname +:+ "." +:+ method)
    ∧ StronglySorted String.le labels.
Proof.
  destruct (discovery_one_label_per_test_method
              (Demo.externals Faulty.two_classes) "app"
              ["test_b"; "test_a"] Faulty.distinct_tree Demo.start)
    as (labels & s' & Hrun & Hperm & Hchar & Hsorted).
  { apply (demo_reads_tree Faulty.two_classes). intros module Hin.
    apply list_elem_of_In in Hin. simpl in Hin.
    destruct Hin as [<-|[<-|[]]]; reflexivity. }
  assert ((_get_test_labels (Demo.externals Faulty.two_classes) "app"
             Demo.start).1
          = Ret ["app.BarTest.test_x"; "app.FooTest.test_x";
                 "app.FooTest.test_y"]) as Hlabels
    by (vm_compute; reflexivity).
  rewrite Hrun in Hlabels. injection Hlabels as Hlabels.
  exists labels, s'.
  split_and!; [exact Hrun|exact Hlabels|exact Hperm| | |exact Hchar|exact Hsorted].
  - rewrite Hlabels. intros Hin. apply list_elem_of_In in Hin. simpl in Hin.
    destruct Hin as [Hin|[Hin|[Hin|[]]]]; discriminate Hin.
  - rewrite Hlabels. intros Hin. apply list_elem_of_In in Hin. simpl in Hin.
    destruct Hin as [Hin|[Hin|[Hin|[]]]]; discriminate Hin.
Defined.

(** C2, as stated, fails.  Two test modules that each define a class
    [FooTest] with a method [test_x] make discovery return the label
    [app.FooTest.test_x] twice: the label names the application, the class
    and the method, not the module. *)
Lemma twin_modules_duplicate_label :
  reads_tree (Demo.externals Demo.base) "app" ["test_a"; "test_b"] Demo.twin_tree
  ∧ Demo.twin_tree "test_a" !! "FooTest" = Some Demo.FooTest
  ∧ Demo.twin_tree "test_b" !! "FooTest" = Some Demo.FooTest
  ∧ ∃ labels s',
      _get_test_labels (Demo.externals Demo.base) "app" Demo.start = (Ret labels, s')
      ∧ labels = ["app.FooTest.test_x"; "app.FooTest.test_x"]
      ∧ ¬ NoDup labels.
Proof.
  split_and!.
  - apply (demo_reads_tree Demo.base). intros module Hin.
    apply list_elem_of_In in Hin. simpl in Hin.
    destruct Hin as [<-|[<-|[]]]; reflexivity.
  - reflexivity.
  - reflexivity.
  - eexists _, _. split_and!.
    + vm_compute. reflexivity.
    + reflexivity.
    + intros Hnd. apply NoDup_cons in Hnd as [Hnd _].
      apply Hnd. left.
Qed.

(** Lists bound to distinct elements of a list share no element when the
    whole is free of duplicates. *)
Lemma NoDup_bind_disjoint {A B} (f : A → list B) (l : list A) x1 x2 y :
  NoDup (l ≫= f) → x1 ∈ l → x2 ∈ l → x1 ≠ x2 → y ∈ f x1 → y ∉ f x2.
Proof.
  induction l as [|x l IH]; intros Hnd Hx1 Hx2 Hne Hy1 Hy2.
  - by apply elem_of_nil in Hx1.
  - rewrite bind_cons in Hnd. apply NoDup_app in Hnd as (_ & Hdisj & Hnd).
    apply elem_of_cons in Hx1 as [->|Hx1], Hx2 as [->|Hx2].
    + done.
    + apply (Hdisj y Hy1). apply list_elem_of_bind. by exists x2.
    + apply (Hdisj y Hy2). apply list_elem_of_bind. by exists x1.
    + by apply IH.
Qed.

(** The labels of the tree are free of duplicates only if no class and
    test method are shared between two modules. *)
Lemma tree_labels_NoDup_inv application tree modules :
  NoDup (tree_labels application tree modules) → tests_disjoint tree modules.
Proof.
  intros Hnd m1 m2 cm Hm1 Hm2 Hne Hcm1 Hcm2.
  apply (NoDup_bind_disjoint _ _ m1 m2
           (test_label application cm.1 cm.2) Hnd Hm1 Hm2 Hne);
    apply list_elem_of_fmap; by exists cm.
Qed.

(** C2, amended.  When the test modules of the application can be
    enumerated and parsed, the labels discovery returns are in lexicographic
    order.  When moreover the modules are enumerated once each and the class
    names hold no dot, the labels are free of duplicates if and only if no
    class name with a test method of the same name occurs in the class
    dictionaries the parser returns for two different modules. *)
Theorem discovery_sorted_and_duplicate_free {W} (X : Externals W)
    (application : string) (modules : list string)
    (tree : string → gmap string ClassDescr) (s : State W) :
  reads_tree X application modules tree →
  ∃ labels s',
    _get_test_labels X application s = (Ret labels, s')
    ∧ StronglySorted String.le labels
    ∧ (NoDup labels → tests_disjoint tree modules)
    ∧ (NoDup modules → class_names_dotless tree modules →
       tests_disjoint tree modules → NoDup labels).
Proof.
  intros Htree. eexists _, _. split; [by apply _get_test_labels_run|].
  split; [apply sorted_sorted|]. split.
  - rewrite sorted_perm. apply tree_labels_NoDup_inv.
  - intros Hmods Hdot Hdisj. rewrite sorted_perm. by apply tree_labels_NoDup.
Qed.

Lemma discovery_sorted_and_duplicate_free_witness :
  ∃ labels s',
    _get_test_labels (Demo.externals Faulty.two_classes) "app" Demo.start
    = (Ret labels, s')
    ∧ labels
      = ["app.BarTest.test_x"; "app.FooTest.test_x"; "app.FooTest.test_y"]
    ∧ ("FooTest", "test_x") ∈ module_tests (Faulty.distinct_tree "test_a")
    ∧ ("BarTest", "test_x") ∈ module_tests (Faulty.distinct_tree "test_b")
    ∧ StronglySorted String.le labels
    ∧ NoDup labels.
Proof.
  destruct (discovery_sorted_and_duplicate_free
              (Demo.externals Faulty.two_classes)
              "app" ["test_b"; "test_a"] Faulty.distinct_tree Demo.start)
    as (labels & s' & Hrun & Hsorted & _ & Hnodup).
  { apply (demo_reads_tree Faulty.two_classes). intros module Hin.
    apply list_elem_of_In in Hin. simpl in Hin.
    destruct Hin as [<-|[<-|[]]]; reflexivity. }
  assert ((_get_test_labels (Demo.externals Faulty.two_classes) "app"
             Demo.start).1
          = Ret ["app.BarTest.test_x"; "app.FooTest.test_x";
                 "app.FooTest.test_y"]) as Hlabels
    by (vm_compute; reflexivity).
  rewrite Hrun in Hlabels. injection Hlabels as Hlabels.
  assert (∀ cm, cm ∈ module_tests (Faulty.distinct_tree "test_a") →
                cm.1 = "FooTest") as Ha.
  { intros [c m] Hcm. apply elem_of_module_tests in Hcm as (cls & Hcls & _).
    change (Faulty.distinct_tree "test_a" !! c)
      with (({[ "FooTest" :=
                  {| cls_lineno := 4;
                     cls_methods := {[ "test_x" := 8%nat; "test_y" := 12%nat;
                                       "setUp" := 5%nat ]} |} ]}
             : gmap string ClassDescr) !! c) in Hcls.
    by apply lookup_singleton_Some in Hcls as [<- _]. }
  assert (∀ cm, cm ∈ module_tests (Faulty.distinct_tree "test_b") →
                cm.1 = "BarTest") as Hb.
  { intros [c m] Hcm. apply elem_of_module_tests in Hcm as (cls & Hcls & _).
    change (Faulty.distinct_tree "test_b" !! c)
      with (({[ "BarTest" :=
                  {| cls_lineno := 3;
                     cls_methods := {[ "test_x" := 4%nat;
                                       "testing" := 9%nat ]} |} ]}
             : gmap string ClassDescr) !! c) in Hcls.
    by apply lookup_singleton_Some in Hcls as [<- _]. }
  exists labels, s'. split_and!; [exact Hrun|exact Hlabels| | |exact Hsorted|].
  - apply elem_of_module_tests. eexists. split; [reflexivity|].
    apply elem_of_test_methods. split; [by eexists|reflexivity].
  - apply elem_of_module_tests. eexists. split; [reflexivity|].
    apply elem_of_test_methods. split; [by eexists|reflexivity].
  - apply Hnodup.
    + apply NoDup_cons. split; [|apply NoDup_singleton].
      intros Hin. apply list_elem_of_singleton in Hin. discriminate Hin.
    + intros module clsname Hin [cls Hcls].
      apply list_elem_of_In in Hin. simpl in Hin.
      destruct Hin as [<-|[<-|[]]].
      * change (Faulty.distinct_tree "test_b" !! clsname)
          with (({[ "BarTest" :=
                      {| cls_lineno := 3;
                         cls_methods := {[ "test_x" := 4%nat;
                                           "testing" := 9%nat ]} |} ]}
                 : gmap string ClassDescr) !! clsname) in Hcls.
        apply lookup_singleton_Some in Hcls as [<- _]. simpl.
        repeat split; discriminate.
      * change (Faulty.distinct_tree "test_a" !! clsname)
          with (({[ "FooTest" :=
                      {| cls_lineno := 4;
                         cls_methods := {[ "test_x" := 8%nat; "test_y" := 12%nat;
                                           "setUp" := 5%nat ]} |} ]}
                 : gmap string ClassDescr) !! clsname) in Hcls.
        apply lookup_singleton_Some in Hcls as [<- _]. simpl.
        repeat split; discriminate.
    + intros m1 m2 cm Hin1 Hin2 Hne Hcm1 Hcm2.
      apply list_elem_of_In in Hin1, Hin2. simpl in Hin1, Hin2.
      destruct Hin1 as [<-|[<-|[]]], Hin2 as [<-|[<-|[]]].
      * exfalso. apply Hne. reflexivity.
      * apply Hb in Hcm1. apply Ha in Hcm2. congruence.
      * apply Ha in Hcm1. apply Hb in Hcm2. congruence.
      * exfalso. apply Hne. reflexivity.
Defined.

(** ** The test operation *)

Section TestOperation.
Context {W : Type} (X : Externals W).

(** [core]: allocate, run the block, release. *)
Lemma core_run args application (s : State W) :
  let s0 := (filterwarnings s).2 in
  let STATIC_ROOT := new_dir (disk (env s0)) in
  let s1 := (mkdtemp s0).2 in
  let MEDIA_ROOT := new_dir (disk (env s1)) in
  let after := core_block X args application STATIC_ROOT MEDIA_ROOT (mkdtemp s1).2 in
  core X args application s
  = (after.1, (rmtree STATIC_ROOT (rmtree MEDIA_ROOT after.2).2).2).
Proof.
  cbv zeta. unfold core, filterwarnings. rewrite emit_then_run.
  rewrite with_temp_dir_run. cbn [fst snd].
  by rewrite with_temp_dir_run.
Qed.

Lemma quiet_not_test_run evs runner failfast labels result :
  Forall no_test_run evs → EvRunTests runner failfast labels result ∉ evs.
Proof.
  intros Hall Hin. rewrite Forall_forall in Hall. by apply (Hall _ Hin).
Qed.

Lemma exits_bind {A B} (m : M W A) (k : A → M W B) :
  emits no_test_run m → (∀ a, returns m a → exits_with_failures (k a)) →
  exits_with_failures (m ≫= k).
Proof.
  intros Hm Hk s. unfold mbind, M_bind, bind.
  destruct (Hm s) as (evs1 & Ht1 & Hq1).
  destruct (m s) as [[a|e] s1] eqn:Hms; cbn [fst snd] in *.
  - destruct (Hk a (ex_intro _ s (ex_intro _ s1 Hms)) s1) as (evs2 & Ht2 & Hex).
    exists (evs1 ++ evs2). split; [by rewrite Ht2, Ht1, app_assoc|].
    intros runner failfast labels n [Hin|Hin]%elem_of_app; [|by eapply Hex].
    by apply quiet_not_test_run in Hin.
  - exists evs1. split; [done|]. intros runner failfast labels n Hin.
    by apply quiet_not_test_run in Hin.
Qed.

Lemma exits_try_finally {A} (m : M W A) (c : M W unit) :
  exits_with_failures m → emits no_test_run c → (∀ s, (c s).1 = Ret tt) →
  exits_with_failures (try_finally m c).
Proof.
  intros Hm Hc Hok s. unfold try_finally.
  destruct (Hm s) as (evs1 & Ht1 & Hex).
  destruct (m s) as [r s1]; cbn [fst snd] in *.
  destruct (Hc s1) as (evs2 & Ht2 & Hq2). specialize (Hok s1).
  destruct (c s1) as [[[]|e] s2]; cbn [fst snd] in *; [|done].
  exists (evs1 ++ evs2). split; [by rewrite Ht2, Ht1, app_assoc|].
  intros runner failfast labels n [Hin|Hin]%elem_of_app; [by eapply Hex|].
  by apply quiet_not_test_run in Hin.
Qed.

Lemma exits_with {A B} (cm : ContextManager W A) (body : A → M W B) :
  emits no_test_run (cm_enter cm) →
  (∀ x, emits no_test_run (cm_exit cm x)) →
  (∀ x s, (cm_exit cm x s).1 = Ret tt) →
  (∀ x, exits_with_failures (body x)) →
  exits_with_failures (with_ cm body).
Proof.
  intros He Hx Hok Hb. unfold with_. apply exits_bind; [done|].
  intros x _. apply exits_try_finally; auto.
Qed.

(** Run the tests, then exit with what they reported. *)
Lemma worker_then_exit test_labels failfast test_runner :
  exits_with_failures
    (num_failures ← _test_run_worker X test_labels failfast test_runner;
     (sys_exit num_failures : M W unit)).
Proof.
  intros s. unfold _test_run_worker, filterwarnings, observe, emit, sys_exit,
    raise, mbind, M_bind, bind, mret, M_ret, ret. cbn [env trace].
  destruct (run_tests X test_runner failfast test_labels (env s)) as [[n|e] e'];
    cbn [fst snd trace].
  - eexists [_; _]. split; [by rewrite <- app_assoc|].
    intros runner ff labels n' Hin.
    apply list_elem_of_In in Hin. simpl in Hin.
    destruct Hin as [Hin|[Hin|[]]]; [done|]. by injection Hin as _ _ _ ->.
  - eexists [_; _]. split; [by rewrite <- app_assoc|].
    intros runner ff labels n' Hin.
    apply list_elem_of_In in Hin. simpl in Hin.
    by destruct Hin as [Hin|[Hin|[]]].
Qed.

(** The statements of the [with context:] block of [core]. *)
Lemma test_then_exit test_labels application failfast test_runner :
  exits_with_failures
    (num_failures ← test X test_labels application failfast test_runner;
     (sys_exit num_failures : M W unit)).
Proof.
  intros s. unfold test.
  pose proof (worker_then_exit) as Hworker.
  unfold exits_with_failures, mbind, M_bind, bind in *.
  destruct (Py.truthy test_labels).
  - apply Hworker.
  - destruct (_get_test_labels_emits X no_test_run application
                (λ _, I) (λ _, I) s) as (evs1 & Ht1 & Hq1).
    destruct (_get_test_labels X application s) as [[labels|e] s1];
      cbn [fst snd] in *.
    + destruct (Hworker labels failfast test_runner s1) as (evs2 & Ht2 & Hex).
      exists (evs1 ++ evs2). split; [by rewrite Ht2, Ht1, app_assoc|].
      intros runner ff ls n [Hin|Hin]%elem_of_app; [|by eapply Hex].
      by apply quiet_not_test_run in Hin.
    + exists evs1. split; [done|]. intros runner ff ls n Hin.
      by apply quiet_not_test_run in Hin.
Qed.

(** The block of [core], when the operation is [test]. *)
Lemma core_block_test_exits args application STATIC_ROOT MEDIA_ROOT :
  arg_test args = true →
  (arg_xvfb args = true → ∀ e, (xvfb_stop X e).1 = Ret tt) →
  exits_with_failures (core_block X args application STATIC_ROOT MEDIA_ROOT).
Proof.
  intros Htest Hstop. unfold core_block. rewrite Htest.
  apply exits_bind; [by apply emits_invoke|]. intros [] _.
  apply exits_bind; [by apply emits_environ_setdefault|]. intros [] _.
  apply exits_bind.
  { destruct (arg_xvfb args); repeat emits_step. }
  intros context (s & s' & Hctx).
  destruct (arg_xvfb args) eqn:Hxvfb.
  - assert (context = Xvfb X) as ->.
    { unfold mbind, M_bind, bind, call in Hctx.
      destruct (import_xvfbwrapper X (env s)) as [[[]|e] e']; by inversion Hctx. }
    apply exits_with; [apply emits_call|intros; apply emits_call| |].
    + intros [] s0. cbn [cm_exit Xvfb]. unfold call.
      specialize (Hstop eq_refl (env s0)).
      by destruct (xvfb_stop X (env s0)).
    + intros []. apply test_then_exit.
  - assert (context = null_context) as -> by (by inversion Hctx).
    apply exits_with; [apply emits_ret|intros; apply emits_ret|done|].
    intros []. apply test_then_exit.
Qed.

End TestOperation.

(** What [core] hands to [sys.exit] in a run of the test operation (with
    the virtual display, if one is used, shutting down without an error) is
    the number of failures the test execution reported: whenever the run of
    [core] contains a test execution that reported [n] failed tests, [core]
    ends in [sys.exit(n)], and in [sys.exit(0)] exactly when no test
    failed. *)
Theorem test_exit_status_is_failure_count {W} (X : Externals W) (args : Args)
    (application : string) (s : State W) :
  arg_test args = true →
  (arg_xvfb args = true → ∀ e, (xvfb_stop X e).1 = Ret tt) →
  ∃ evs,
    trace (core X args application s).2 = trace s ++ evs ∧
    ∀ runner failfast labels n,
      EvRunTests runner failfast labels (Ret n) ∈ evs →
      (core X args application s).1 = Raise (SystemExit n)
      ∧ ((core X args application s).1 = Raise (SystemExit 0) ↔ n = 0%Z).
Proof.
  intros Htest Hstop. rewrite core_run. cbn [fst snd].
  set (s0 := (filterwarnings s).2).
  set (STATIC_ROOT := new_dir (disk (env s0))).
  set (s1 := (mkdtemp s0).2).
  set (MEDIA_ROOT := new_dir (disk (env s1))).
  set (s2 := (mkdtemp s1).2).
  destruct (core_block_test_exits X args application STATIC_ROOT MEDIA_ROOT
              Htest Hstop s2) as (evs & Ht & Hex).
  exists ([EvFilterWarnings; EvMkdtemp STATIC_ROOT; EvMkdtemp MEDIA_ROOT]
          ++ evs ++ [EvRmtree MEDIA_ROOT; EvRmtree STATIC_ROOT]).
  split.
  { cbn [rmtree trace snd]. rewrite Ht. simpl. by rewrite <- !app_assoc. }
  intros runner failfast labels n Hin.
  assert (EvRunTests runner failfast labels (Ret n) ∈ evs) as Hev.
  { apply elem_of_app in Hin as [Hin|Hin].
    - apply list_elem_of_In in Hin. simpl in Hin.
      by destruct Hin as [|[|[|[]]]].
    - apply elem_of_app in Hin as [Hin|Hin]; [done|].
      apply list_elem_of_In in Hin. simpl in Hin.
      by destruct Hin as [|[|[]]]. }
  rewrite (Hex _ _ _ _ Hev). split; [done|].
  split; [by intros [= ->]|by intros ->].
Qed.

Lemma test_exit_status_is_failure_count_witness :
  (core (Demo.externals Demo.base) (Demo.invocation "app" "test" []) "app"
        Demo.start).1
  = Raise (SystemExit 2).
Proof.
  destruct (test_exit_status_is_failure_count (Demo.externals Demo.base)
              (Demo.invocation "app" "test" []) "app" Demo.start)
    as (evs & Htrace & Hexit).
  - reflexivity.
  - discriminate.
  - vm_compute in Htrace. subst evs.
    apply (Hexit None false ["app.FooTest.test_x"; "app.FooTest.test_x"] 2%Z).
    repeat constructor.
Defined.

(** C4, a defect of the code.  The failure count goes to [sys.exit]
    unchanged, and the status of a process is the low eight bits of what
    [sys.exit] is given.  A run of the test operation in which 256 tests
    fail therefore ends in [sys.exit(256)] and the process exits with
    status 0, the status of a run without a failed test. *)
Theorem exit_status_wraps_at_256 :
  (∃ s',
     core (Demo.externals Faulty.many_failures)
          (Demo.invocation "app" "test" []) "app" Demo.start
     = (Raise (SystemExit 256), s')
     ∧ EvRunTests None false ["app.FooTest.test_x"; "app.FooTest.test_x"]
                  (Ret 256%Z) ∈ trace s')
  ∧ posix_exit_status 256 = 0%Z
  ∧ (256 ≠ 0)%Z.
Proof.
  split_and!.
  - eexists. split; [vm_compute; reflexivity|].
    cbn [trace]. repeat first [apply list_elem_of_here | apply list_elem_of_further].
  - reflexivity.
  - discriminate.
Qed.

(** When the virtual display cannot be shut down, the error of shutting it
    down replaces the exit: the run of the test operation in which two
    tests fail ends with that error and not in [sys.exit(2)]. *)
Lemma display_failure_replaces_exit_status :
  ∃ s',
    core (Faulty.display_fails Demo.base) (Faulty.xvfb_invocation "app" [])
         "app" Demo.start
    = (Raise OSError, s')
    ∧ EvRunTests None false ["app.FooTest.test_x"; "app.FooTest.test_x"]
                 (Ret 2%Z) ∈ trace s'.
Proof.
  eexists. split; [vm_compute; reflexivity|].
  cbn [trace]. repeat first [apply list_elem_of_here | apply list_elem_of_further].
Qed.

(** C8.  The test operation hands explicit labels, when there are any, to
    the test execution as they are and does nothing else besides: test
    discovery is not consulted.  Without explicit labels it runs discovery
    and hands the labels discovery returns to the test execution; if
    discovery fails, no test is executed. *)
Theorem test_labels_explicit_or_discovered {W} (X : Externals W)
    (application : string) (failfast : bool) (runner : option string)
    (s : State W) :
  (∀ label labels,
     let run := run_tests X runner failfast (label :: labels) (env s) in
     test X (label :: labels) application failfast runner s
     = (run.1,
        {| trace := trace s ++ [EvFilterWarnings;
                                EvRunTests runner failfast (label :: labels) run.1];
           env := run.2 |})
     ∧ Forall no_discovery_event
         [EvFilterWarnings; EvRunTests runner failfast (label :: labels) run.1])
  ∧ match _get_test_labels X application s with
    | (Ret discovered, s1) =>
        let run := run_tests X runner failfast discovered (env s1) in
        test X [] application failfast runner s
        = (run.1,
           {| trace := trace s1 ++ [EvFilterWarnings;
                                    EvRunTests runner failfast discovered run.1];
              env := run.2 |})
    | (Raise e, s1) => test X [] application failfast runner s = (Raise e, s1)
    end.
Proof.
  split.
  - intros label labels.
    unfold test, _test_run_worker, filterwarnings, observe, emit,
      mbind, M_bind, bind, mret, M_ret, ret.
    cbn [Py.truthy env trace fst snd].
    destruct (run_tests X runner failfast (label :: labels) (env s)) as [[n|e] e'];
      cbn [fst snd]; (split; [by rewrite <- app_assoc|by repeat constructor]).
  - unfold test. cbn [Py.truthy]. unfold mbind, M_bind, bind.
    destruct (_get_test_labels X application s) as [[discovered|e] s1]; [|done].
    unfold _test_run_worker, filterwarnings, observe, emit,
      mbind, M_bind, bind, mret, M_ret, ret.
    cbn [env trace fst snd].
    destruct (run_tests X runner failfast discovered (env s1)) as [[n|e] e'];
      cbn [fst snd]; by rewrite <- app_assoc.
Qed.

(** ** Static analysis *)

(** C9.  When django CMS provides the analysis, the application imports and
    pyflakes reports at least one issue, [static_analisys] fails with an
    [AssertionError], which nothing in the helper catches.  When the
    analysis cannot be imported, [static_analisys] prints that static
    analysis needs django CMS and returns normally. *)
Theorem static_analisys_fails_on_issues_only {W} (X : Externals W)
    (application : string) (s : State W) :
  (∀ m issues e1 e2 e3,
     import_pyflakes X (env s) = (Ret tt, e1) →
     import_module X application e1 = (Ret m, e2) →
     pyflakes X [m] e2 = (Ret issues, e3) →
     issues ≠ 0%Z →
     static_analisys X application s
     = (Raise AssertionError,
        {| trace := trace s ++ [EvPyflakes [mod_name m]]; env := e3 |}))
  ∧ (∀ e1,
       import_pyflakes X (env s) = (Raise ImportError, e1) →
       static_analisys X application s
       = (Ret tt,
          {| trace := trace s ++
               [EvPrint "Static analisys available only if django CMS is installed"];
             env := e1 |})).
Proof.
  split.
  - intros m issues e1 e2 e3 Himport Hmodule Hflakes Hissues.
    unfold static_analisys, try_except, invoke, call, emit, raise,
      mbind, M_bind, bind.
    rewrite Himport. cbn [env trace]. rewrite Hmodule. cbn [env trace].
    rewrite Hflakes.
    destruct (Z.eqb_spec issues 0) as [|_]; [done|]. reflexivity.
  - intros e1 Himport.
    unfold static_analisys, try_except, call, mbind, M_bind, bind.
    rewrite Himport. reflexivity.
Qed.

Lemma static_analisys_fails_on_issues_only_witness :
  static_analisys (Demo.externals Demo.base) "app" Demo.start
  = (Raise AssertionError,
     {| trace := [EvPyflakes ["app"]]; env := env Demo.start |})
  ∧ static_analisys (Demo.externals Demo.without_cms) "app" Demo.start
    = (Ret tt,
       {| trace := [EvPrint "Static analisys available only if django CMS is installed"];
          env := env Demo.start |}).
Proof.
  split.
  - apply (proj1 (static_analisys_fails_on_issues_only
                    (Demo.externals Demo.base) "app" Demo.start)
             {| mod_name := "app"; mod_version := "0.1" |} 3%Z
             (env Demo.start) (env Demo.start) (env Demo.start));
      [reflexivity|reflexivity|reflexivity|discriminate].
  - apply (proj2 (static_analisys_fails_on_issues_only
                    (Demo.externals Demo.without_cms) "app" Demo.start)
             (env Demo.start)).
    reflexivity.
Defined.

(** ** Messages *)

(** C10.  [makemessages] calls the extraction command once, inside the
    application directory, and asks it for the locale ['en'] and no other.
    Nothing else [core] does, whatever the command line says, is a message
    extraction for another locale. *)
Theorem makemessages_extracts_en_only {W} (X : Externals W)
    (application : string) (s : State W) :
  (∃ c,
     trace (makemessages X application s).2
       = trace s ++ [EvChdir (cwd (env s) ++ [application]);
                     EvCallCommand c;
                     EvChdir (cwd (env s))]
     ∧ cmd_name c = "makemessages"
     ∧ cmd_args c = []
     ∧ requested_locales c = ["en"])
  ∧ (∀ args, ∃ evs,
       trace (core X args application s).2 = trace s ++ evs
       ∧ Forall extracts_en_only evs).
Proof.
  split.
  - unfold makemessages, with_, work_in, try_finally, chdir, get_env, invoke,
      call, emit, mbind, M_bind, bind, mret, M_ret, ret.
    cbn [cm_enter cm_exit env trace cwd].
    destruct (DJANGO_1_5 X); cbn [env trace cwd];
      match goal with
      | |- context [call_command X ?c ?e] =>
          destruct (call_command X c e) as [[[]|?] ?]; exists c
      end;
      cbn [fst snd trace]; (split_and!; [by rewrite <- !app_assoc|done..]).
  - intros args. revert s. change (emits extracts_en_only (core X args application)).
    unfold core. apply emits_bind; [by apply emits_emit|]. intros _.
    apply emits_with; [by apply emits_mkdtemp|intros; by apply emits_rmtree|].
    intros STATIC_ROOT.
    apply emits_with; [by apply emits_mkdtemp|intros; by apply emits_rmtree|].
    intros MEDIA_ROOT.
    eapply emits_weaken; [|apply core_block_emits]. by intros ev [_ ?].
Qed.

(** ** Migrations *)




(** ** Parsing comes first *)





(** * Further properties of the code *)

(** ** Dispatch *)

Section DispatchProperties.
Context {W : Type} (X : Externals W).

(** The block of [core] makes the settings and then dispatches. *)
Lemma core_block_dispatch args application STATIC_ROOT MEDIA_ROOT :
  core_block X args application STATIC_ROOT MEDIA_ROOT
  = (invoke (EvMakeSettings STATIC_ROOT MEDIA_ROOT)
            (_make_settings X args application STATIC_ROOT MEDIA_ROOT);;
     dispatch X args application).
Proof. reflexivity. Qed.

(** The context the test operation runs in is one of two. *)
Lemma test_context_cases args context :
  returns (if arg_xvfb args
           then call (import_xvfbwrapper X);; mret (Xvfb X)
           else mret null_context) context →
  context = Xvfb X ∨ context = null_context.
Proof.
  intros (s & s' & Hctx). destruct (arg_xvfb args); [left|right].
  - unfold mbind, M_bind, bind, call in Hctx.
    destruct (import_xvfbwrapper X (env s)) as [[[]|e] e']; by inversion Hctx.
  - by inversion Hctx.
Qed.

Lemma test_operation_event test_labels application failfast test_runner :
  emits operation_event (test X test_labels application failfast test_runner).
Proof.
  unfold test. apply emits_bind.
  - destruct (Py.truthy test_labels); [apply emits_ret|].
    by apply _get_test_labels_emits.
  - intros labels. by apply _test_run_worker_emits.
Qed.

(** No operation makes settings or touches the temporary directories. *)
Lemma dispatch_emits args application :
  emits operation_event (dispatch X args application).
Proof.
  unfold dispatch. destruct (arg_test args).
  - apply emits_bind; [by apply emits_environ_setdefault|]. intros _.
    apply emits_bind_returns.
    { destruct (arg_xvfb args); repeat emits_step. }
    intros context [-> | ->]%test_context_cases.
    + apply emits_with; [apply emits_call|intros; apply emits_call|].
      intros _. apply emits_bind; [apply test_operation_event|].
      intros; emits_step.
    + apply emits_with; [apply emits_ret|intros; apply emits_ret|].
      intros _. apply emits_bind; [apply test_operation_event|].
      intros; emits_step.
  - unfold shell, compilemessages, makemessages, makemigrations,
      static_analisys, generate_authors.
    repeat emits_step; done.
Qed.

(** The operations other than [test] run no test and discover nothing. *)
Lemma dispatch_offline args application :
  arg_test args = false → emits offline_event (dispatch X args application).
Proof.
  intros Htest. unfold dispatch. rewrite Htest.
  unfold shell, compilemessages, makemessages, makemigrations,
    static_analisys, generate_authors.
  repeat emits_step; done.
Qed.

Lemma never_bind {A B} (m : M W A) (k : A → M W B) :
  (∀ a, never_returns (k a)) → never_returns (m ≫= k).
Proof.
  intros Hk s b. unfold mbind, M_bind, bind.
  destruct (m s) as [[a|e] s1]; [apply Hk|done].
Qed.

Lemma never_try_finally {A} (m : M W A) (c : M W unit) :
  never_returns m → never_returns (try_finally m c).
Proof.
  intros Hm s a. unfold try_finally. specialize (Hm s a).
  destruct (m s) as [r s1]. by destruct (c s1) as [[[]|e] s2].
Qed.

Lemma never_with {A B} (cm : ContextManager W A) (body : A → M W B) :
  (∀ x, never_returns (body x)) → never_returns (with_ cm body).
Proof.
  intros Hb. unfold with_. apply never_bind. intros x.
  by apply never_try_finally.
Qed.

Lemma never_sys_exit {A} code : never_returns (sys_exit code : M W A).
Proof. by intros s a. Qed.

(** [core] ends the way its block ends. *)
Lemma core_outcome args application (s : State W) :
  ∃ STATIC_ROOT MEDIA_ROOT s2,
    (core X args application s).1
    = (core_block X args application STATIC_ROOT MEDIA_ROOT s2).1.
Proof. eexists _, _, _. by rewrite core_run. Qed.

End DispatchProperties.

(** X1.  The first thing the block of [core] does is to make the settings,
    for the two directories it was given; it does so once, and no operation
    makes settings or creates or removes a temporary directory.  When
    making the settings fails, the block fails with the same exception
    and no operation has been started. *)
Theorem settings_are_made_first {W} (X : Externals W) (args : Args)
    (application : string) (STATIC_ROOT MEDIA_ROOT : path) (s : State W) :
  ∃ evs,
    trace (core_block X args application STATIC_ROOT MEDIA_ROOT s).2
      = trace s ++ EvMakeSettings STATIC_ROOT MEDIA_ROOT :: evs
    ∧ Forall operation_event evs
    ∧ (∀ e,
         (_make_settings X args application STATIC_ROOT MEDIA_ROOT (env s)).1
           = Raise e →
         evs = []
         ∧ (core_block X args application STATIC_ROOT MEDIA_ROOT s).1 = Raise e).
Proof.
  rewrite core_block_dispatch.
  unfold invoke, emit, call, mbind, M_bind, bind. cbn [env trace].
  destruct (_make_settings X args application STATIC_ROOT MEDIA_ROOT (env s))
    as [[[]|e] e1]; cbn [fst snd trace].
  - set (s1 := {| trace := trace s ++ [EvMakeSettings STATIC_ROOT MEDIA_ROOT];
                  env := e1 |}).
    destruct (dispatch_emits X args application s1) as (evs & Ht & Hall).
    exists evs. split_and!; [|done|discriminate].
    rewrite Ht. subst s1. cbn [trace]. by rewrite <- app_assoc.
  - exists []. split_and!; [done|constructor|].
    by intros ? [= <-].
Qed.

Lemma settings_are_made_first_witness :
  (core_block (Faulty.externals Demo.base Faulty.bad_settings)
     (Demo.invocation "app" "shell" []) "app" ["tmp"; "s"] ["tmp"; "m"]
     Demo.start).1
  = Raise (OtherError "ImproperlyConfigured")
  ∧ trace (core_block (Faulty.externals Demo.base Faulty.bad_settings)
             (Demo.invocation "app" "shell" []) "app" ["tmp"; "s"] ["tmp"; "m"]
             Demo.start).2
    = [EvMakeSettings ["tmp"; "s"] ["tmp"; "m"]].
Proof.
  destruct (settings_are_made_first (Faulty.externals Demo.base Faulty.bad_settings)
              (Demo.invocation "app" "shell" []) "app" ["tmp"; "s"] ["tmp"; "m"]
              Demo.start) as (evs & Htrace & _ & Hfail).
  destruct (Hfail (OtherError "ImproperlyConfigured") eq_refl) as [-> Hout].
  split; [exact Hout|exact Htrace].
Defined.

(** X2.  The test operation never returns to its caller: however the
    libraries behave, and also when no test fails, [core] ends in an
    exception ([SystemExit] with the failure count, or the error that
    stopped the run), so nothing placed after the call of [core] runs. *)
Theorem test_operation_never_returns {W} (X : Externals W) (args : Args)
    (application : string) :
  arg_test args = true →
  (∀ STATIC_ROOT MEDIA_ROOT,
     never_returns (core_block X args application STATIC_ROOT MEDIA_ROOT))
  ∧ never_returns (core X args application).
Proof.
  intros Htest.
  assert (∀ STATIC_ROOT MEDIA_ROOT,
            never_returns (core_block X args application STATIC_ROOT MEDIA_ROOT))
    as Hblock.
  { intros STATIC_ROOT MEDIA_ROOT. rewrite core_block_dispatch.
    apply never_bind. intros _. unfold dispatch. rewrite Htest.
    apply never_bind. intros _. apply never_bind. intros context.
    apply never_with. intros _. apply never_bind. intros n.
    apply never_sys_exit. }
  split; [done|]. intros s a.
  destruct (core_outcome X args application s) as (S & M' & s2 & ->).
  apply Hblock.
Qed.

Lemma test_operation_never_returns_witness :
  (core (Demo.externals Faulty.no_tests) (Demo.invocation "app" "test" []) "app"
        Demo.start).1 = Raise (SystemExit 0)
  ∧ (core (Demo.externals Faulty.no_tests) (Demo.invocation "app" "test" []) "app"
          Demo.start).1 ≠ Ret tt.
Proof.
  split; [vm_compute; reflexivity|].
  apply (proj2 (test_operation_never_returns (Demo.externals Faulty.no_tests)
                  (Demo.invocation "app" "test" []) "app" eq_refl)).
Defined.

(** X4.  An operation other than [test] executes no test, does not consult
    test discovery and does not set the live-server address: none of these
    is among the effects of [core] when the [test] keyword is absent. *)
Theorem other_operations_run_no_tests {W} (X : Externals W) (args : Args)
    (application : string) (s : State W) :
  arg_test args = false →
  ∃ evs,
    trace (core X args application s).2 = trace s ++ evs
    ∧ Forall no_test_run evs
    ∧ Forall no_discovery_event evs
    ∧ (∀ key value, EvSetdefault key value ∉ evs).
Proof.
  intros Htest.
  assert (emits (λ ev, no_test_run ev ∧ no_discovery_event ev
                       ∧ ∀ key value, ev ≠ EvSetdefault key value)
                (core X args application)) as Hcore.
  { unfold core. apply emits_bind; [by apply emits_emit|]. intros _.
    apply emits_with; [by apply emits_mkdtemp|intros; by apply emits_rmtree|].
    intros STATIC_ROOT.
    apply emits_with; [by apply emits_mkdtemp|intros; by apply emits_rmtree|].
    intros MEDIA_ROOT. rewrite core_block_dispatch.
    apply emits_bind; [by apply emits_invoke|]. intros _.
    eapply emits_weaken; [|by apply dispatch_offline].
    intros ev Hev. by destruct ev. }
  destruct (Hcore s) as (evs & Ht & Hall). exists evs.
  split_and!; [done|..].
  - eapply Forall_impl; [exact Hall|]. by intros ev (? & _).
  - eapply Forall_impl; [exact Hall|]. by intros ev (_ & ? & _).
  - intros key value Hin. rewrite Forall_forall in Hall.
    destruct (Hall _ Hin) as (_ & _ & Hne). by apply (Hne key value).
Qed.

Lemma other_operations_run_no_tests_witness :
  ∃ evs,
    trace (core (Demo.externals Demo.base) (Demo.invocation "app" "pyflakes" [])
             "app" Demo.start).2 = trace Demo.start ++ evs
    ∧ Forall no_test_run evs
    ∧ Forall no_discovery_event evs
    ∧ (∀ key value, EvSetdefault key value ∉ evs).
Proof.
  apply (other_operations_run_no_tests (Demo.externals Demo.base)
           (Demo.invocation "app" "pyflakes" []) "app" Demo.start).
  reflexivity.
Defined.

(** X3.  With explicit labels and without a virtual display, once the
    settings are made the test operation does one thing: it runs the tests,
    with the runner, the fail-fast flag and the labels of the command line,
    in an environment whose [DJANGO_LIVE_TEST_SERVER_ADDRESS] is the value
    it already had, or [localhost:8000-9000] if it had none, and that is
    otherwise the one the settings left.  The block ends in [SystemExit]
    with what the run returned, or in the error of the run. *)
Theorem test_run_gets_command_line_and_address {W} (X : Externals W)
    (args : Args) (application : string) (STATIC_ROOT MEDIA_ROOT : path)
    (s : State W) (label : string) (labels : list string) (e1 : Env W) :
  arg_test args = true →
  arg_xvfb args = false →
  arg_test_label args = label :: labels →
  _make_settings X args application STATIC_ROOT MEDIA_ROOT (env s) = (Ret tt, e1) →
  ∃ e2,
    environ e2 !! "DJANGO_LIVE_TEST_SERVER_ADDRESS"
      = Some (default "localhost:8000-9000"
                      (environ e1 !! "DJANGO_LIVE_TEST_SERVER_ADDRESS"))
    ∧ (∀ key, key ≠ "DJANGO_LIVE_TEST_SERVER_ADDRESS" →
         environ e2 !! key = environ e1 !! key)
    ∧ disk e2 = disk e1 ∧ cwd e2 = cwd e1
    ∧ sys_path e2 = sys_path e1 ∧ world e2 = world e1
    ∧ let run := run_tests X (arg_runner args) (arg_failfast args)
                   (label :: labels) e2 in
      core_block X args application STATIC_ROOT MEDIA_ROOT s
      = (match run.1 with
         | Ret n => Raise (SystemExit n)
         | Raise e => Raise e
         end,
         {| trace := trace s ++
              [EvMakeSettings STATIC_ROOT MEDIA_ROOT;
               EvSetdefault "DJANGO_LIVE_TEST_SERVER_ADDRESS" "localhost:8000-9000";
               EvFilterWarnings;
               EvRunTests (arg_runner args) (arg_failfast args)
                          (label :: labels) run.1];
            env := run.2 |}).
Proof.
  intros Htest Hxvfb Hlabels Hsettings.
  unfold core_block. rewrite Htest, Hxvfb, Hlabels.
  unfold invoke, emit, call, mbind, M_bind, bind. cbn [env trace].
  rewrite Hsettings.
  unfold environ_setdefault, with_, null_context, try_finally, test,
    _test_run_worker, filterwarnings, observe, emit, sys_exit, raise,
    mbind, M_bind, bind, mret, M_ret, ret.
  cbn [env trace cm_enter cm_exit Py.truthy disk cwd environ sys_path world].
  exists {| disk := disk e1; cwd := cwd e1;
            environ := match environ e1 !! "DJANGO_LIVE_TEST_SERVER_ADDRESS" with
                       | Some _ => environ e1
                       | None => <["DJANGO_LIVE_TEST_SERVER_ADDRESS" :=
                                   "localhost:8000-9000"]> (environ e1)
                       end;
            sys_path := sys_path e1; world := world e1 |}.
  cbn [disk cwd environ sys_path world].
  split_and!; [| |done..|].
  - destruct (environ e1 !! _) as [v|] eqn:Hv; [done|].
    by rewrite lookup_insert_eq.
  - intros key Hkey. destruct (environ e1 !! "DJANGO_LIVE_TEST_SERVER_ADDRESS");
      [done|]. by rewrite lookup_insert_ne.
  - cbv zeta.
    destruct (run_tests X _ _ _ _) as [[n|e] e3]; cbn [fst snd trace env];
      by rewrite <- !app_assoc.
Qed.

Lemma test_run_gets_command_line_and_address_witness :
  ∃ e2 : Env unit,
    environ e2 !! "DJANGO_LIVE_TEST_SERVER_ADDRESS" = Some "localhost:9100"
    ∧ core_block (Demo.externals Demo.base)
        (Demo.invocation "app" "test" ["app.FooTest"]) "app"
        ["tmp"; "s"] ["tmp"; "m"] Faulty.with_address
      = (Raise (SystemExit 2),
         {| trace :=
              [EvMakeSettings ["tmp"; "s"] ["tmp"; "m"];
               EvSetdefault "DJANGO_LIVE_TEST_SERVER_ADDRESS" "localhost:8000-9000";
               EvFilterWarnings;
               EvRunTests None false ["app.FooTest"] (Ret 2%Z)];
            env := e2 |}).
Proof.
  destruct (test_run_gets_command_line_and_address (Demo.externals Demo.base)
              (Demo.invocation "app" "test" ["app.FooTest"]) "app"
              ["tmp"; "s"] ["tmp"; "m"] Faulty.with_address
              "app.FooTest" [] (env Faulty.with_address)
              eq_refl eq_refl eq_refl eq_refl)
    as (e2 & Haddress & _ & _ & _ & _ & _ & Hrun).
  exists e2. split; [exact Haddress|exact Hrun].
Defined.

(** ** More on test discovery *)

Section DiscoveryProperties.
Context {W : Type} (X : Externals W).

(** Sorting forgets the order of its input. *)
Lemma sorted_of_permutation l1 l2 : l1 ≡ₚ l2 → Py.sorted l1 = Py.sorted l2.
Proof.
  intros Hperm. apply (Sorted_unique String.le).
  - apply Sorted_merge_sort, _.
  - apply Sorted_merge_sort, _.
  - by rewrite !sorted_perm.
Qed.

(** The loop over the modules stops at the first module that cannot be
    read. *)
Lemma modules_loop_abort application tree pre module post test_labels s e e' :
  (∀ m en, m ∈ pre →
     readmodule X (application +:+ ".tests." +:+ m) en = (Ret (tree m), en)) →
  readmodule X (application +:+ ".tests." +:+ module) (env s) = (Raise e, e') →
  modules_loop X application (pre ++ module :: post) test_labels s
  = (Raise e,
     {| trace := trace s ++ read_events application (pre ++ [module]);
        env := e' |}).
Proof.
  intros Hread Hfail. revert test_labels s Hfail.
  induction pre as [|m pre IH]; intros test_labels s Hfail.
  - cbn [app modules_loop]. unfold invoke, call, emit, mbind, M_bind, bind.
    cbn [env trace]. by rewrite Hfail.
  - cbn [app modules_loop]. unfold invoke, call, emit, mbind, M_bind, bind.
    cbn [env trace]. rewrite Hread by left.
    rewrite IH; [|intros; apply Hread; by right|done].
    cbn [env trace]. unfold read_events. rewrite fmap_cons, !fmap_app.
    by rewrite <- !app_assoc.
Qed.

End DiscoveryProperties.

(** X5.  For an application without test modules discovery returns the
    empty list, reading no module; and the test operation, given no
    explicit labels, still executes the test runner, with an empty list of
    labels. *)
Theorem no_test_modules_runs_empty_label_list {W} (X : Externals W)
    (application : string) (failfast : bool) (runner : option string)
    (s : State W) :
  (∀ e, iter_modules X (os_path_join [application; "tests"]) e = []) →
  _get_test_labels X application s
  = (Ret [],
     {| trace := trace s ++ [EvIterModules (os_path_join [application; "tests"])];
        env := env s |})
  ∧ let run := run_tests X runner failfast [] (env s) in
    test X [] application failfast runner s
    = (run.1,
       {| trace := trace s ++
            [EvIterModules (os_path_join [application; "tests"]);
             EvFilterWarnings; EvRunTests runner failfast [] run.1];
          env := run.2 |}).
Proof.
  intros Hnone.
  assert (_get_test_labels X application s
          = (Ret [],
             {| trace := trace s ++
                  [EvIterModules (os_path_join [application; "tests"])];
                env := env s |})) as Hdiscover.
  { unfold _get_test_labels, emit, get_env, mbind, M_bind, bind.
    cbn [env trace]. by rewrite Hnone. }
  split; [done|]. cbv zeta.
  unfold test. cbn [Py.truthy]. unfold mbind at 1, M_bind, bind at 1.
  rewrite Hdiscover.
  unfold _test_run_worker, filterwarnings, observe, emit,
    mbind, M_bind, bind, mret, M_ret, ret. cbn [env trace].
  destruct (run_tests X runner failfast [] (env s)) as [[n|e] e'];
    cbn [fst snd]; by rewrite <- !app_assoc.
Qed.

Lemma no_test_modules_runs_empty_label_list_witness :
  _get_test_labels (Demo.externals Faulty.no_tests) "app" Demo.start
  = (Ret [], {| trace := [EvIterModules ["app"; "tests"]]; env := env Demo.start |})
  ∧ test (Demo.externals Faulty.no_tests) [] "app" false None Demo.start
    = (Ret 0%Z,
       {| trace := [EvIterModules ["app"; "tests"]; EvFilterWarnings;
                    EvRunTests None false [] (Ret 0%Z)];
          env := env Demo.start |}).
Proof.
  apply (no_test_modules_runs_empty_label_list (Demo.externals Faulty.no_tests)
           "app" false None Demo.start).
  reflexivity.
Defined.

(** X6.  A test module that cannot be read is not skipped: discovery ends
    with the error of reading it, the modules listed after it are not
    read, and the test operation, given no explicit labels, ends with the
    same error without executing any test. *)
Theorem discovery_aborts_on_unreadable_module {W} (X : Externals W)
    (application : string) (tree : string → gmap string ClassDescr)
    (pre : list string) (module : string) (post : list string)
    (failfast : bool) (runner : option string) (s : State W)
    (e : exn) (e' : Env W) :
  (∀ en, iter_modules X (os_path_join [application; "tests"]) en
         = pre ++ module :: post) →
  (∀ m en, m ∈ pre →
     readmodule X (application +:+ ".tests." +:+ m) en = (Ret (tree m), en)) →
  readmodule X (application +:+ ".tests." +:+ module) (env s) = (Raise e, e') →
  let failed : State W :=
    {| trace := trace s ++ EvIterModules (os_path_join [application; "tests"])
                            :: read_events application (pre ++ [module]);
       env := e' |} in
  _get_test_labels X application s = (Raise e, failed)
  ∧ test X [] application failfast runner s = (Raise e, failed).
Proof.
  intros Hlist Hread Hfail failed.
  assert (_get_test_labels X application s = (Raise e, failed)) as Hdiscover.
  { unfold _get_test_labels, emit, get_env, mbind, M_bind, bind.
    cbn [env trace]. rewrite Hlist.
    rewrite (modules_loop_abort X application tree pre module post [] _ e e');
      [|done|done].
    subst failed. cbn [trace]. by rewrite <- app_assoc. }
  split; [done|].
  unfold test. cbn [Py.truthy]. unfold mbind, M_bind, bind.
  by rewrite Hdiscover.
Qed.

Lemma discovery_aborts_on_unreadable_module_witness :
  _get_test_labels (Faulty.externals Faulty.three_modules Faulty.bad_module)
    "app" Demo.start
  = (Raise ImportError,
     {| trace := [EvIterModules ["app"; "tests"];
                  EvReadModule "app.tests.test_a";
                  EvReadModule "app.tests.test_c";
                  EvReadModule "app.tests.test_b"];
        env := env Demo.start |})
  ∧ test (Faulty.externals Faulty.three_modules Faulty.bad_module) [] "app"
      false None Demo.start
    = (Raise ImportError,
       {| trace := [EvIterModules ["app"; "tests"];
                    EvReadModule "app.tests.test_a";
                    EvReadModule "app.tests.test_c";
                    EvReadModule "app.tests.test_b"];
          env := env Demo.start |}).
Proof.
  apply (discovery_aborts_on_unreadable_module
           (Faulty.externals Faulty.three_modules Faulty.bad_module)
           "app" Demo.twin_tree ["test_a"; "test_c"] "test_b" []
           false None Demo.start ImportError (env Demo.start)).
  - reflexivity.
  - intros m en Hin. apply list_elem_of_In in Hin. simpl in Hin.
    destruct Hin as [<-|[<-|[]]]; reflexivity.
  - reflexivity.
Defined.

(** X7.  What discovery returns does not depend on the order in which the
    test modules are listed: two enumerations of the same modules of the
    same tree give the same list of labels. *)
Theorem discovery_ignores_module_order {W} (X1 X2 : Externals W)
    (application : string) (modules1 modules2 : list string)
    (tree : string → gmap string ClassDescr) (s1 s2 : State W) :
  reads_tree X1 application modules1 tree →
  reads_tree X2 application modules2 tree →
  modules1 ≡ₚ modules2 →
  (_get_test_labels X1 application s1).1 = (_get_test_labels X2 application s2).1.
Proof.
  intros Htree1 Htree2 Hperm.
  rewrite (_get_test_labels_run X1 application modules1 tree s1 Htree1).
  rewrite (_get_test_labels_run X2 application modules2 tree s2 Htree2).
  cbn [fst]. f_equal. apply sorted_of_permutation.
  unfold tree_labels. by rewrite Hperm.
Qed.

Lemma discovery_ignores_module_order_witness :
  (_get_test_labels (Demo.externals Faulty.three_modules) "app" Demo.start).1
  = (_get_test_labels (Demo.externals Faulty.reordered) "app" Demo.start).1.
Proof.
  apply (discovery_ignores_module_order (Demo.externals Faulty.three_modules)
           (Demo.externals Faulty.reordered) "app"
           ["test_a"; "test_c"; "test_b"] ["test_b"; "test_a"; "test_c"]
           Demo.twin_tree).
  - apply (demo_reads_tree Faulty.three_modules). intros m Hin.
    apply list_elem_of_In in Hin. simpl in Hin.
    destruct Hin as [<-|[<-|[<-|[]]]]; reflexivity.
  - apply (demo_reads_tree Faulty.reordered). intros m Hin.
    apply list_elem_of_In in Hin. simpl in Hin.
    destruct Hin as [<-|[<-|[<-|[]]]]; reflexivity.
  - symmetry. apply (Permutation_cons_append ["test_a"; "test_c"] "test_b").
Defined.

(** ** More on the authors list *)

Section AuthorsProperties.

(** The names kept are among the names given. *)
Lemma dedup_ci_subset names a : a ∈ dedup_ci names → a ∈ names.
Proof.
  induction names as [|x names IH]; [done|].
  cbn [dedup_ci foldr]. fold (dedup_ci names).
  intros [->|Hin]%elem_of_cons; [left|right].
  apply list_elem_of_filter in Hin as [_ Hin]. by apply IH.
Qed.

(** Every name given is kept, in some casing. *)
Lemma dedup_ci_complete names a :
  a ∈ names → ∃ b, b ∈ dedup_ci names ∧ Py.lower b = Py.lower a.
Proof.
  induction names as [|x names IH]; [by intros ?%elem_of_nil|].
  cbn [dedup_ci foldr]. fold (dedup_ci names).
  intros [->|Hin]%elem_of_cons.
  - exists x. split; [left|done].
  - destruct (IH Hin) as (b & Hb & Heq).
    destruct (decide (Py.lower b = Py.lower x)) as [Hx|Hx].
    + exists x. split; [left|congruence].
    + exists b. split; [|done]. right. by apply list_elem_of_filter.
Qed.

(** Names that already differ up to case are all kept. *)
Lemma dedup_ci_id names : NoDup (Py.lower <$> names) → dedup_ci names = names.
Proof.
  induction names as [|x names IH]; [done|].
  rewrite fmap_cons. intros [Hx Hnd]%NoDup_cons.
  cbn [dedup_ci foldr]. fold (dedup_ci names). rewrite IH by done. f_equal.
  clear IH Hnd. induction names as [|y names IH]; [done|].
  rewrite fmap_cons in Hx. apply not_elem_of_cons in Hx as [Hxy Hx].
  rewrite filter_cons_True by congruence. by rewrite IH.
Qed.

(** A selection that holds of everything selects everything. *)
Lemma filter_all {A} (P : A → Prop) `{!∀ x, Decision (P x)} (l : list A) :
  (∀ x, P x) → filter P l = l.
Proof.
  intros HP. induction l as [|a l IH]; [done|].
  rewrite filter_cons_True by done. by rewrite IH.
Qed.

(** The loop of [generate_authors], started with nothing seen. *)
Lemma add_author_all names :
  foldl add_author ([], []) names = (Py.lower <$> dedup_ci names, dedup_ci names).
Proof.
  pose proof (add_author_loop names []) as Hloop.
  cbn [app fmap list_fmap] in Hloop. rewrite Hloop. cbv zeta.
  by rewrite filter_all by (intros; apply not_elem_of_nil).
Qed.

(** Deduplicating two lists one after the other. *)
Lemma dedup_ci_app names1 names2 :
  dedup_ci (names1 ++ names2)
  = dedup_ci names1
    ++ dedup_ci (filter (λ a, Py.lower a ∉ Py.lower <$> dedup_ci names1) names2).
Proof.
  pose proof (add_author_all (names1 ++ names2)) as Hall.
  rewrite foldl_app, add_author_all, add_author_loop in Hall.
  cbv zeta in Hall. by injection Hall as _ <-.
Qed.

(** The list of authors, as a sorted deduplication. *)
Lemma authors_list_dedup file_lines log_lines :
  authors_list file_lines log_lines
  = Py.sorted_by Py.lower
      (dedup_ci (file_authors file_lines ++ log_authors log_lines)).
Proof. unfold authors_list. by rewrite authors_loops. Qed.

(** No two authors of the list agree up to case. *)
Lemma authors_list_NoDup file_lines log_lines :
  NoDup (Py.lower <$> authors_list file_lines log_lines).
Proof.
  rewrite authors_list_dedup, sorted_by_perm. apply dedup_ci_NoDup.
Qed.

(** A list sorted by distinct keys is what sorting it gives. *)
Lemma sorted_by_id {A} (key : A → string) (l : list A) :
  StronglySorted (Py.key_le key) l → NoDup (key <$> l) →
  Py.sorted_by key l = l.
Proof.
  intros Hsorted Hnd.
  apply (StronglySorted_unique_strong (Py.key_le key)).
  - intros x1 x2 Hx1 Hx2 H12 H21.
    assert (key x1 = key x2) as Hkey.
    { unfold Py.key_le in *. by apply (anti_symm String.le). }
    rewrite sorted_by_perm in Hx1.
    clear Hsorted H12 H21. induction l as [|y l IH]; [by apply elem_of_nil in Hx1|].
    rewrite fmap_cons in Hnd. apply NoDup_cons in Hnd as [Hy Hnd].
    apply elem_of_cons in Hx1 as [->|Hx1], Hx2 as [->|Hx2]; [done| | |by apply IH].
    + destruct Hy. rewrite Hkey. apply list_elem_of_fmap. eauto.
    + destruct Hy. rewrite <- Hkey. apply list_elem_of_fmap. eauto.
  - apply sorted_by_sorted.
  - done.
  - apply sorted_by_perm.
Qed.

(** Every name of the file and of the log is listed, up to case. *)
Lemma authors_list_complete file_lines log_lines a :
  a ∈ file_authors file_lines ++ log_authors log_lines →
  ∃ b, b ∈ authors_list file_lines log_lines ∧ Py.lower b = Py.lower a.
Proof.
  rewrite authors_list_dedup. intros Hin.
  destruct (dedup_ci_complete _ a Hin) as (b & Hb & Heq).
  exists b. by rewrite sorted_by_perm.
Qed.

End AuthorsProperties.

(** X8.  The list of authors loses no one and invents no one: each of its
    members is a name of the AUTHORS file or of the log, and every name of
    the file and of the log is in it, up to case. *)
Theorem authors_list_keeps_every_name (file_lines log_lines : list string) :
  (∀ a, a ∈ authors_list file_lines log_lines →
        a ∈ file_authors file_lines ++ log_authors log_lines)
  ∧ (∀ a, a ∈ file_authors file_lines ++ log_authors log_lines →
          ∃ b, b ∈ authors_list file_lines log_lines
               ∧ Py.lower b = Py.lower a).
Proof.
  split.
  - intros a. rewrite authors_list_dedup, sorted_by_perm. apply dedup_ci_subset.
  - intros a. apply authors_list_complete.
Qed.

(** X9.  The spelling of the AUTHORS file wins over the spelling of the
    log: an author of the list whose name, up to case, is in the file is
    listed as the file spells the name. *)
Theorem file_spelling_wins (file_lines log_lines : list string)
    (a f : string) :
  a ∈ authors_list file_lines log_lines →
  f ∈ file_authors file_lines →
  Py.lower f = Py.lower a →
  a ∈ file_authors file_lines.
Proof.
  rewrite authors_list_dedup, sorted_by_perm, dedup_ci_app.
  intros [Hin|Hin]%elem_of_app Hf Heq.
  - by apply dedup_ci_subset in Hin.
  - apply dedup_ci_subset, list_elem_of_filter in Hin as [Hnew _].
    destruct Hnew.
    destruct (dedup_ci_complete _ f Hf) as (b & Hb & Hbf).
    apply list_elem_of_fmap. exists b. split; [congruence|done].
Qed.

Lemma file_spelling_wins_witness :
  "Alice" ∈ file_authors ["* Alice" +:+ nl; "* bob" +:+ nl].
Proof.
  apply (file_spelling_wins ["* Alice" +:+ nl; "* bob" +:+ nl]
           ["Carol" +:+ nl; "alice" +:+ nl; "ALICE" +:+ nl] "Alice" "Alice").
  - vm_compute. repeat constructor.
  - vm_compute. repeat constructor.
  - reflexivity.
Defined.

(** X10.  The report can be fed back: when the AUTHORS file is replaced by
    the lines [* name] of the list of authors (names that the stripping of
    such a line gives back), the same log yields the same list again. *)
Theorem authors_list_is_stable (file_lines log_lines : list string) :
  (∀ a, a ∈ authors_list file_lines log_lines →
        Py.strip_chars ["*"; " "; Py.newline]%char (author_line a) = a) →
  authors_list (author_line <$> authors_list file_lines log_lines) log_lines
  = authors_list file_lines log_lines.
Proof.
  intros Hclean.
  set (result := authors_list file_lines log_lines) in *.
  assert (file_authors (author_line <$> result) = result) as Hfile.
  { unfold file_authors. revert Hclean. generalize result. intros l Hl.
    induction l as [|a l IH]; [done|].
    rewrite fmap_cons, filter_cons_True by done.
    rewrite fmap_cons, Hl by left. f_equal. apply IH.
    intros b Hb. apply Hl. by right. }
  rewrite (authors_list_dedup (author_line <$> result)), Hfile.
  rewrite dedup_ci_app, dedup_ci_id by apply authors_list_NoDup.
  assert (filter (λ a, Py.lower a ∉ Py.lower <$> result) (log_authors log_lines)
          = []) as ->.
  { assert (∀ a, a ∈ log_authors log_lines → Py.lower a ∈ Py.lower <$> result)
      as Hseen.
    { intros a Ha.
      destruct (authors_list_complete file_lines log_lines a)
        as (b & Hb & Heq); [apply elem_of_app; by right|].
      apply list_elem_of_fmap. by exists b. }
    revert Hseen. generalize (log_authors log_lines). intros l Hl.
    induction l as [|a l IH]; [done|].
    rewrite filter_cons_False by (intros Hnot; apply Hnot, Hl; left).
    apply IH. intros b Hb. apply Hl. by right. }
  cbn [dedup_ci foldr]. rewrite app_nil_r.
  apply sorted_by_id; [|apply authors_list_NoDup].
  subst result. apply sorted_by_sorted.
Qed.

Lemma authors_list_is_stable_witness :
  authors_list (author_line <$> ["Alice"; "bob"; "Carol"])
               ["Carol" +:+ nl; "alice" +:+ nl]
  = ["Alice"; "bob"; "Carol"].
Proof.
  apply (authors_list_is_stable ["* Alice" +:+ nl; "* bob" +:+ nl]
           ["Carol" +:+ nl; "alice" +:+ nl]).
  intros a Hin. apply list_elem_of_In in Hin. vm_compute in Hin.
  destruct Hin as [<-|[<-|[<-|[]]]]; reflexivity.
Defined.

(** X11.  The Authors operation has no error handling of its own.  When
    git cannot be started, it ends with that error and the AUTHORS file is
    not opened; when the AUTHORS file cannot be opened, it ends with that
    error after git was started, and no list of authors is printed. *)
Theorem generate_authors_fails_without_report {W} (X : Externals W)
    (s : State W) :
  let argv := ["git"; "log"; "--use-mailmap"; "--format=%aN"] in
  (∀ e e1,
     popen_readlines X argv (env s) = (Raise e, e1) →
     generate_authors X s
     = (Raise e,
        {| trace := trace s ++
             [EvPrint "Generating AUTHORS"; EvPrint "Collecting author names";
              EvPopen argv];
           env := e1 |}))
  ∧ (∀ log_lines e1 e e2,
       popen_readlines X argv (env s) = (Ret log_lines, e1) →
       open_readlines X "AUTHORS" e1 = (Raise e, e2) →
       generate_authors X s
       = (Raise e,
          {| trace := trace s ++
               [EvPrint "Generating AUTHORS"; EvPrint "Collecting author names";
                EvPopen argv; EvOpen "AUTHORS"];
             env := e2 |})).
Proof.
  cbv zeta. split.
  - intros e e1 Hgit.
    unfold generate_authors, print, invoke, call, emit, mbind, M_bind, bind.
    cbn [env trace]. rewrite Hgit. by rewrite <- !app_assoc.
  - intros log_lines e1 e e2 Hgit Hfile.
    unfold generate_authors, print, invoke, call, emit, mbind, M_bind, bind.
    cbn [env trace]. rewrite Hgit. cbn [env trace]. rewrite Hfile.
    by rewrite <- !app_assoc.
Qed.

Lemma generate_authors_fails_without_report_witness :
  generate_authors (Faulty.externals Demo.base Faulty.no_authors_file) Demo.start
  = (Raise IOError,
     {| trace :=
          [EvPrint "Generating AUTHORS"; EvPrint "Collecting author names";
           EvPopen ["git"; "log"; "--use-mailmap"; "--format=%aN"];
           EvOpen "AUTHORS"];
        env := env Demo.start |}).
Proof.
  apply (proj2 (generate_authors_fails_without_report
                  (Faulty.externals Demo.base Faulty.no_authors_file) Demo.start)
           ["Carol" +:+ nl; "alice" +:+ nl] (env Demo.start) IOError
           (env Demo.start));
    reflexivity.
Defined.

(** ** More on static analysis *)

(** X12.  [static_analisys] treats every [ImportError] alike: when the
    analysis is there but the application itself cannot be imported, it
    prints that static analysis needs django CMS and returns normally,
    without running pyflakes.  When pyflakes finds nothing, it returns
    normally and prints nothing.  An error of importing the analysis that
    is not an [ImportError] is passed on. *)
Theorem static_analisys_swallows_import_errors {W} (X : Externals W)
    (application : string) (s : State W) :
  (∀ e1 e2,
     import_pyflakes X (env s) = (Ret tt, e1) →
     import_module X application e1 = (Raise ImportError, e2) →
     static_analisys X application s
     = (Ret tt,
        {| trace := trace s ++
             [EvPrint "Static analisys available only if django CMS is installed"];
           env := e2 |}))
  ∧ (∀ m e1 e2 e3,
       import_pyflakes X (env s) = (Ret tt, e1) →
       import_module X application e1 = (Ret m, e2) →
       pyflakes X [m] e2 = (Ret 0%Z, e3) →
       static_analisys X application s
       = (Ret tt, {| trace := trace s ++ [EvPyflakes [mod_name m]]; env := e3 |}))
  ∧ (∀ e e1,
       import_pyflakes X (env s) = (Raise e, e1) →
       is_ImportError e = false →
       static_analisys X application s
       = (Raise e, {| trace := trace s; env := e1 |})).
Proof.
  split_and!.
  - intros e1 e2 Himport Hmodule.
    unfold static_analisys, try_except, call, mbind, M_bind, bind.
    rewrite Himport. cbn [env trace]. by rewrite Hmodule.
  - intros m e1 e2 e3 Himport Hmodule Hflakes.
    unfold static_analisys, try_except, invoke, call, emit, mbind, M_bind, bind.
    rewrite Himport. cbn [env trace]. rewrite Hmodule. cbn [env trace].
    by rewrite Hflakes.
  - intros e e1 Himport Hother.
    unfold static_analisys, try_except, call, mbind, M_bind, bind.
    rewrite Himport. by rewrite Hother.
Qed.

Lemma static_analisys_swallows_import_errors_witness :
  static_analisys (Faulty.externals Demo.base Faulty.bad_import) "app" Demo.start
  = (Ret tt,
     {| trace := [EvPrint "Static analisys available only if django CMS is installed"];
        env := env Demo.start |})
  ∧ static_analisys (Demo.externals Faulty.no_tests) "app" Demo.start
    = (Ret tt, {| trace := [EvPyflakes ["app"]]; env := env Demo.start |}).
Proof.
  split.
  - apply (proj1 (static_analisys_swallows_import_errors
                    (Faulty.externals Demo.base Faulty.bad_import) "app" Demo.start)
             (env Demo.start) (env Demo.start)); reflexivity.
  - apply (proj1 (proj2 (static_analisys_swallows_import_errors
                           (Demo.externals Faulty.no_tests) "app" Demo.start))
             {| mod_name := "app"; mod_version := "0.1" |}
             (env Demo.start) (env Demo.start) (env Demo.start)); reflexivity.
Defined.

(** ** The default settings *)

Section SettingsProperties.
Import Settings.

Lemma as_strs_strs l : as_strs (strs l) = Some l.
Proof.
  unfold as_strs, strs. by apply mapM_fmap_Some.
Qed.

Lemma baseline_apps_NoDup : NoDup (contrib_apps ++ admin_apps).
Proof. by apply (bool_decide_unpack _). Qed.

Lemma installed_apps_perm CMS_APP CMS_APP_STYLE :
  installed_apps CMS_APP CMS_APP_STYLE
  ≡ₚ (contrib_apps ++ admin_apps) ++ (CMS_APP_STYLE ++ CMS_APP).
Proof.
  unfold installed_apps. rewrite <- !app_assoc. f_equiv.
  rewrite !app_assoc. f_equiv. apply Permutation_app_comm.
Qed.

End SettingsProperties.

(** X13.  [INSTALLED_APPS] of the default settings is the list built from
    the fixed applications, [CMS_APP_STYLE] and [CMS_APP]; an application
    is listed twice only if the caller's lists bring the duplicate: the
    list is duplicate-free exactly when [CMS_APP_STYLE] followed by
    [CMS_APP] is duplicate-free and names none of the eight fixed
    applications. *)
Theorem installed_apps_duplicates
    (CMS_APP CMS_PROCESSORS CMS_MIDDLEWARE CMS_APP_STYLE : list string)
    (URLCONF application : string) :
  Settings.setting_strs
    (Settings.get_default_settings CMS_APP CMS_PROCESSORS CMS_MIDDLEWARE
       CMS_APP_STYLE URLCONF application) "INSTALLED_APPS"
  = Some (Settings.installed_apps CMS_APP CMS_APP_STYLE)
  ∧ (NoDup (Settings.installed_apps CMS_APP CMS_APP_STYLE)
     ↔ NoDup (CMS_APP_STYLE ++ CMS_APP)
       ∧ ∀ a, a ∈ CMS_APP_STYLE ++ CMS_APP →
              a ∉ Settings.contrib_apps ++ Settings.admin_apps).
Proof.
  split.
  - unfold Settings.setting_strs, Settings.get_default_settings,
      Settings.default_items.
    cbn [list_to_map foldr]. rewrite lookup_insert_eq.
    apply as_strs_strs.
  - rewrite installed_apps_perm, NoDup_app. split.
    + intros (_ & Hdisj & Hnd). split; [done|].
      intros a Ha Hfixed. by apply (Hdisj a).
    + intros [Hnd Hdisj]. split_and!; [apply baseline_apps_NoDup| |done].
      intros a Hfixed Ha. by apply (Hdisj a).
Qed.

(** X14.  In [INSTALLED_APPS] every application of [CMS_APP_STYLE] comes
    before [django.contrib.admin] and every application of [CMS_APP] after
    it: when [CMS_APP_STYLE] does not itself name the admin, the list is a
    part without the admin, which holds all of [CMS_APP_STYLE], then the
    admin, then a part that holds all of [CMS_APP]. *)
Theorem style_apps_precede_admin (CMS_APP CMS_APP_STYLE : list string) :
  "django.contrib.admin" ∉ CMS_APP_STYLE →
  ∃ before after,
    Settings.installed_apps CMS_APP CMS_APP_STYLE
      = before ++ ("django.contrib.admin" :: after)
    ∧ ("django.contrib.admin" ∉ before)
    ∧ (∀ a, a ∈ CMS_APP_STYLE → a ∈ before)
    ∧ (∀ a, a ∈ CMS_APP → a ∈ after).
Proof.
  intros Hstyle.
  exists (Settings.contrib_apps ++ CMS_APP_STYLE),
         (["app_helper.test_data"; "django.contrib.messages"] ++ CMS_APP).
  split_and!.
  - unfold Settings.installed_apps, Settings.admin_apps.
    by rewrite <- !app_assoc.
  - rewrite not_elem_of_app. split; [|done].
    by apply (bool_decide_unpack _).
  - intros a Ha. apply elem_of_app. by right.
  - intros a Ha. apply elem_of_app. by right.
Qed.

Lemma style_apps_precede_admin_witness :
  ∃ before after,
    Settings.installed_apps ["cms"; "menus"] ["djangocms_admin_style"]
      = before ++ ("django.contrib.admin" :: after)
    ∧ ("django.contrib.admin" ∉ before)
    ∧ (∀ a, a ∈ ["djangocms_admin_style"] → a ∈ before)
    ∧ (∀ a, a ∈ ["cms"; "menus"] → a ∈ after).
Proof.
  apply (style_apps_precede_admin ["cms"; "menus"] ["djangocms_admin_style"]).
  by apply (bool_decide_unpack _).
Defined.

(** ** The URL configuration *)

(** X15.  The application's own URLs are optional, its other errors are
    not.  When loading [<application>.urls] fails with an [OSError], the
    localized URLs stay as they are and nothing is included; an error of
    loading that is no [OSError] ends the import of the URL module; and
    when the file loads, the application's URLs are appended under the
    route of the application, unless including them fails, which is passed
    on when it is no [OSError]. *)
Theorem application_urls_are_optional {W} (U : Urls.UrlExternals W)
    (settings : Urls.UrlSettings) (i18n_urls : list Urls.Url) (s : State W) :
  let module := Urls.BASE_APPLICATION settings +:+ ".urls" in
  (∀ e e1,
     Urls.load_urls_file U module (env s) = (Raise e, e1) →
     Urls.application_urls U settings i18n_urls s
     = (if Urls.is_OSError e then Ret i18n_urls else Raise e,
        {| trace := trace s; env := e1 |}))
  ∧ (∀ e1 included e2,
       Urls.load_urls_file U module (env s) = (Ret tt, e1) →
       Urls.include U module e1 = (Ret included, e2) →
       Urls.application_urls U settings i18n_urls s
       = (Ret (i18n_urls ++
               [{| Urls.route := "^" +:+ Urls.BASE_APPLICATION settings +:+ "/";
                   Urls.target := included |}]),
          {| trace := trace s; env := e2 |}))
  ∧ (∀ e1 e e2,
       Urls.load_urls_file U module (env s) = (Ret tt, e1) →
       Urls.include U module e1 = (Raise e, e2) →
       Urls.application_urls U settings i18n_urls s
       = (if Urls.is_OSError e then Ret i18n_urls else Raise e,
          {| trace := trace s; env := e2 |})).
Proof.
  cbv zeta. split_and!.
  - intros e e1 Hload.
    unfold Urls.application_urls, try_except, call, mbind, M_bind, bind.
    rewrite Hload. by destruct (Urls.is_OSError e).
  - intros e1 included e2 Hload Hinclude.
    unfold Urls.application_urls, try_except, call, mbind, M_bind, bind.
    rewrite Hload. cbn [env trace]. by rewrite Hinclude.
  - intros e1 e e2 Hload Hinclude.
    unfold Urls.application_urls, try_except, call, mbind, M_bind, bind.
    rewrite Hload. cbn [env trace]. rewrite Hinclude.
    by destruct (Urls.is_OSError e).
Qed.

Lemma application_urls_are_optional_witness :
  Urls.application_urls Faulty.no_app_urls
    {| Urls.MEDIA_ROOT := ["tmp"; "m"]; Urls.BASE_APPLICATION := "app";
       Urls.USE_CMS := false |}
    [{| Urls.route := "admin/"; Urls.target := Urls.TAdminSite |}] Demo.start
  = (Ret [{| Urls.route := "admin/"; Urls.target := Urls.TAdminSite |}],
     Demo.start).
Proof.
  apply (proj1 (application_urls_are_optional Faulty.no_app_urls
                  {| Urls.MEDIA_ROOT := ["tmp"; "m"];
                     Urls.BASE_APPLICATION := "app"; Urls.USE_CMS := false |}
                  [{| Urls.route := "admin/"; Urls.target := Urls.TAdminSite |}]
                  Demo.start) OSError (env Demo.start)).
  reflexivity.
Defined.

Lemma bind_returns {W A B} (m : M W A) (k : A → M W B) s b s' :
  (a ← m; k a) s = (Ret b, s') →
  ∃ a s1, m s = (Ret a, s1) ∧ k a s1 = (Ret b, s').
Proof.
  unfold mbind, M_bind, bind. destruct (m s) as [[a|e] s1]; [|discriminate].
  intros Hk. by exists a, s1.
Qed.

(** X16.  Whenever the URL module is imported without an error, its
    [urlpatterns] are, in this order: the media files under [MEDIA_ROOT],
    the JavaScript catalogue, whatever [i18n_patterns] made of the
    localized URLs, and whatever [staticfiles_urlpatterns] returned.  The
    localized URLs handed to [i18n_patterns] are the admin, then the
    application's URLs under ["^<application>/"] exactly when both
    [load_from_file] and [include] succeeded on ["<application>.urls"]
    (otherwise nothing, an [OSError] of either being swallowed), then the
    catch-all of django CMS exactly when [USE_CMS] is set.  The calls happen
    in this order: [autodiscover], the application's URLs, the include of
    ["cms.urls"], [i18n_patterns], [staticfiles_urlpatterns]. *)
Theorem urlpatterns_order {W} (U : Urls.UrlExternals W)
    (settings : Urls.UrlSettings) (s s' : State W) (entries : list Urls.Entry) :
  Urls.urlpatterns U settings s = (Ret entries, s') →
  ∃ s0 s1 s2 s3 application_part cms_part localized static,
    call (Urls.autodiscover U) s = (Ret tt, s0)
    ∧ Urls.application_urls U settings
        [{| Urls.route := "admin/"; Urls.target := Urls.TAdminSite |}] s0
      = (Ret ({| Urls.route := "admin/"; Urls.target := Urls.TAdminSite |}
              :: application_part), s1)
    ∧ match Urls.load_urls_file U
              (Urls.BASE_APPLICATION settings +:+ ".urls") (env s0) with
      | (Ret _, e1) =>
          match Urls.include U
                  (Urls.BASE_APPLICATION settings +:+ ".urls") e1 with
          | (Ret included, _) =>
              application_part
              = [{| Urls.route := "^" +:+ Urls.BASE_APPLICATION settings +:+ "/";
                    Urls.target := included |}]
          | (Raise _, _) => application_part = []
          end
      | (Raise _, _) => application_part = []
      end
    ∧ (if Urls.USE_CMS settings
       then ∃ included,
              call (Urls.include U "cms.urls") s1 = (Ret included, s2)
              ∧ cms_part = [{| Urls.route := ""; Urls.target := included |}]
       else cms_part = [] ∧ s2 = s1)
    ∧ call (Urls.i18n_patterns U
              ({| Urls.route := "admin/"; Urls.target := Urls.TAdminSite |}
               :: application_part ++ cms_part)) s2
      = (Ret localized, s3)
    ∧ call (Urls.staticfiles_urlpatterns U) s3 = (Ret static, s')
    ∧ entries
      = [Urls.Plain {| Urls.route := "media/<str:path>";
                       Urls.target := Urls.TServe (Urls.MEDIA_ROOT settings) true |};
         Urls.Plain {| Urls.route := "jsi18n/<str:packages>";
                       Urls.target := Urls.TJavaScriptCatalog |}]
        ++ localized ++ static.
Proof.
  intros H. unfold Urls.urlpatterns in H.
  apply bind_returns in H as ([] & s0 & Hauto & H).
  apply bind_returns in H as (with_app & s1 & Happ & H).
  apply bind_returns in H as (urls & s2 & Hcms & H).
  apply bind_returns in H as (localized & s3 & Hloc & H).
  apply bind_returns in H as (static & s4 & Hstatic & H).
  injection H as <- <-.
  assert (∃ application_part,
    with_app = {| Urls.route := "admin/"; Urls.target := Urls.TAdminSite |}
               :: application_part
    ∧ match Urls.load_urls_file U
              (Urls.BASE_APPLICATION settings +:+ ".urls") (env s0) with
      | (Ret _, e1) =>
          match Urls.include U
                  (Urls.BASE_APPLICATION settings +:+ ".urls") e1 with
          | (Ret included, _) =>
              application_part
              = [{| Urls.route := "^" +:+ Urls.BASE_APPLICATION settings +:+ "/";
                    Urls.target := included |}]
          | (Raise _, _) => application_part = []
          end
      | (Raise _, _) => application_part = []
      end) as (application_part & -> & Hpart).
  { revert Happ.
    unfold Urls.application_urls, try_except, call, mbind, M_bind, bind,
      mret, M_ret, ret.
    destruct (Urls.load_urls_file U _ (env s0)) as [[[]|e] e1];
      cbn [env trace].
    - destruct (Urls.include U _ e1) as [[included|e] e2].
      + intros [= <- _]. by eexists.
      + destruct (Urls.is_OSError e); [|discriminate].
        intros [= <- _]. by exists [].
    - destruct (Urls.is_OSError e); [|discriminate].
      intros [= <- _]. by exists []. }
  assert (∃ cms_part,
    urls = ({| Urls.route := "admin/"; Urls.target := Urls.TAdminSite |}
            :: application_part) ++ cms_part
    ∧ if Urls.USE_CMS settings
      then ∃ included,
             call (Urls.include U "cms.urls") s1 = (Ret included, s2)
             ∧ cms_part = [{| Urls.route := ""; Urls.target := included |}]
      else cms_part = [] ∧ s2 = s1) as (cms_part & -> & Hpart').
  { destruct (Urls.USE_CMS settings).
    - apply bind_returns in Hcms as (included & s2' & Hinc & Hret).
      injection Hret as <- <-. eexists. split; [reflexivity|]. by exists included.
    - injection Hcms as <- <-. exists []. by rewrite app_nil_r. }
  exists s0, s1, s2, s3, application_part, cms_part, localized, static.
  split_and!; done.
Qed.

Lemma urlpatterns_order_witness :
  (∃ s0 s1 s2 s3 application_part cms_part localized static,
     call (Urls.autodiscover Faulty.with_app_urls) Demo.start = (Ret tt, s0)
     ∧ Urls.application_urls Faulty.with_app_urls
         {| Urls.MEDIA_ROOT := ["tmp"; "m"]; Urls.BASE_APPLICATION := "app";
            Urls.USE_CMS := true |}
         [{| Urls.route := "admin/"; Urls.target := Urls.TAdminSite |}] s0
       = (Ret ({| Urls.route := "admin/"; Urls.target := Urls.TAdminSite |}
               :: application_part), s1)
     ∧ application_part
       = [{| Urls.route := "^app/"; Urls.target := Urls.TInclude "app.urls" |}]
     ∧ (∃ included,
          call (Urls.include Faulty.with_app_urls "cms.urls") s1
          = (Ret included, s2)
          ∧ cms_part = [{| Urls.route := ""; Urls.target := included |}])
     ∧ call (Urls.i18n_patterns Faulty.with_app_urls
               ({| Urls.route := "admin/"; Urls.target := Urls.TAdminSite |}
                :: application_part ++ cms_part)) s2
       = (Ret localized, s3)
     ∧ call (Urls.staticfiles_urlpatterns Faulty.with_app_urls) s3
       = (Ret static, Demo.start)
     ∧ [Urls.Plain {| Urls.route := "media/<str:path>";
                      Urls.target := Urls.TServe ["tmp"; "m"] true |};
        Urls.Plain {| Urls.route := "jsi18n/<str:packages>";
                      Urls.target := Urls.TJavaScriptCatalog |};
        Urls.Localized
          [{| Urls.route := "admin/"; Urls.target := Urls.TAdminSite |};
           {| Urls.route := "^app/"; Urls.target := Urls.TInclude "app.urls" |};
           {| Urls.route := ""; Urls.target := Urls.TInclude "cms.urls" |}];
        Urls.Static "static/"]
       = [Urls.Plain {| Urls.route := "media/<str:path>";
                        Urls.target := Urls.TServe ["tmp"; "m"] true |};
          Urls.Plain {| Urls.route := "jsi18n/<str:packages>";
                        Urls.target := Urls.TJavaScriptCatalog |}]
         ++ localized ++ static)
  ∧ Urls.urlpatterns Faulty.without_i18n
      {| Urls.MEDIA_ROOT := ["tmp"; "m"]; Urls.BASE_APPLICATION := "app";
         Urls.USE_CMS := false |} Demo.start
    = (Ret [Urls.Plain {| Urls.route := "media/<str:path>";
                          Urls.target := Urls.TServe ["tmp"; "m"] true |};
            Urls.Plain {| Urls.route := "jsi18n/<str:packages>";
                          Urls.target := Urls.TJavaScriptCatalog |};
            Urls.Plain {| Urls.route := "admin/"; Urls.target := Urls.TAdminSite |};
            Urls.Plain {| Urls.route := "^app/";
                          Urls.target := Urls.TInclude "app.urls" |};
            Urls.Static "static/"], Demo.start).
Proof.
  split; [|reflexivity].
  apply (urlpatterns_order Faulty.with_app_urls
           {| Urls.MEDIA_ROOT := ["tmp"; "m"]; Urls.BASE_APPLICATION := "app";
              Urls.USE_CMS := true |}
           Demo.start Demo.start).
  reflexivity.
Defined.

(** ** Management commands *)

Section CommandBudget.
Context {W : Type} (X : Externals W).

Lemma commands_app evs1 evs2 :
  commands (evs1 ++ evs2) = commands evs1 ++ commands evs2.
Proof. apply omap_app. Qed.

Lemma quiet_commands evs : Forall no_command evs → commands evs = [].
Proof.
  unfold commands. induction 1 as [|ev evs Hev _ IH]; [done|].
  cbn [omap list_omap]. rewrite IH. by destruct ev.
Qed.

Lemma budget_quiet {A} (m : M W A) : emits no_command m → command_budget 0 m.
Proof.
  intros Hm s. destruct (Hm s) as (evs & Ht & Hall). exists evs.
  split; [done|]. by rewrite quiet_commands.
Qed.

Lemma budget_weaken {A} (n n' : nat) (m : M W A) :
  (n ≤ n')%nat → command_budget n m → command_budget n' m.
Proof.
  intros Hle Hm s. destruct (Hm s) as (evs & Ht & Hlen).
  exists evs. split; [done|lia].
Qed.

Lemma budget_bind {A B} (n1 n2 : nat) (m : M W A) (k : A → M W B) :
  command_budget n1 m → (∀ a, command_budget n2 (k a)) →
  command_budget (n1 + n2) (m ≫= k).
Proof.
  intros Hm Hk s. unfold mbind, M_bind, bind.
  destruct (Hm s) as (evs1 & Ht1 & Hl1).
  destruct (m s) as [[a|e] s1]; cbn [fst snd] in *.
  - destruct (Hk a s1) as (evs2 & Ht2 & Hl2). exists (evs1 ++ evs2).
    split; [by rewrite Ht2, Ht1, app_assoc|].
    rewrite commands_app, length_app. lia.
  - exists evs1. split; [done|lia].
Qed.

Lemma budget_try_except {A} (n1 n2 : nat) (m h : M W A) handles :
  command_budget n1 m → command_budget n2 h →
  command_budget (n1 + n2) (try_except m handles h).
Proof.
  intros Hm Hh s. unfold try_except.
  destruct (Hm s) as (evs1 & Ht1 & Hl1).
  destruct (m s) as [[a|e] s1]; cbn [fst snd] in *;
    [exists evs1; split; [done|lia]|].
  destruct (handles e); [|exists evs1; split; [done|lia]].
  destruct (Hh s1) as (evs2 & Ht2 & Hl2). exists (evs1 ++ evs2).
  split; [by rewrite Ht2, Ht1, app_assoc|].
  rewrite commands_app, length_app. lia.
Qed.

Lemma budget_command {A} (c : Command) (f : Ext W A) :
  command_budget 1 (invoke (EvCallCommand c) f).
Proof.
  intros s. exists [EvCallCommand c]. split; [|done].
  unfold invoke, call, emit, mbind, M_bind, bind. cbn [env trace].
  by destruct (f (env s)).
Qed.

Lemma budget_with {A B} (n : nat) (cm : ContextManager W A) (body : A → M W B) :
  emits no_command (cm_enter cm) →
  (∀ x, emits no_command (cm_exit cm x)) →
  (∀ x, command_budget n (body x)) →
  command_budget n (with_ cm body).
Proof.
  intros He Hx Hb s. unfold with_, try_finally, mbind, M_bind, bind.
  destruct (He s) as (evs1 & Ht1 & Hq1).
  destruct (cm_enter cm s) as [[x|e] s1]; cbn [fst snd] in *.
  - destruct (Hb x s1) as (evs2 & Ht2 & Hl2).
    destruct (body x s1) as [r s2]; cbn [fst snd] in *.
    destruct (Hx x s2) as (evs3 & Ht3 & Hq3).
    exists (evs1 ++ evs2 ++ evs3). split.
    + destruct (cm_exit cm x s2) as [[[]|e] s3]; cbn [fst snd] in *;
        by rewrite Ht3, Ht2, Ht1, <- !app_assoc.
    + rewrite !commands_app, !length_app.
      rewrite (quiet_commands evs1), (quiet_commands evs3) by done.
      cbn [length]. lia.
  - exists evs1. split; [done|]. rewrite quiet_commands by done. cbn. lia.
Qed.

Lemma budget_work_in (n : nat) dirname (body : path → M W unit) :
  (∀ x, command_budget n (body x)) →
  command_budget n (with_ (work_in dirname) body).
Proof.
  intros Hb. apply budget_with; [|intros; by apply emits_chdir|done].
  cbn [cm_enter work_in]. repeat emits_step; try by apply emits_chdir.
Qed.

Lemma test_emits_any (P : Event → Prop) test_labels application failfast
    test_runner :
  P EvFilterWarnings → (∀ dir, P (EvIterModules dir)) →
  (∀ name, P (EvReadModule name)) →
  (∀ result labels, P (EvRunTests test_runner failfast labels result)) →
  emits P (test X test_labels application failfast test_runner).
Proof.
  intros Hw Hdir Hmod Hrun. unfold test. apply emits_bind.
  - destruct (Py.truthy test_labels); [apply emits_ret|].
    by apply _get_test_labels_emits.
  - intros labels. by apply _test_run_worker_emits.
Qed.

(** The test operation issues no command. *)
Lemma dispatch_test_quiet args application :
  arg_test args = true → emits no_command (dispatch X args application).
Proof.
  intros Htest. unfold dispatch. rewrite Htest.
  apply emits_bind; [by apply emits_environ_setdefault|]. intros _.
  apply emits_bind_returns.
  { destruct (arg_xvfb args); repeat emits_step. }
  intros context [-> | ->]%test_context_cases.
  - apply emits_with; [apply emits_call|intros; apply emits_call|].
    intros _. apply emits_bind; [by apply test_emits_any|].
    intros; emits_step.
  - apply emits_with; [apply emits_ret|intros; apply emits_ret|].
    intros _. apply emits_bind; [by apply test_emits_any|].
    intros; emits_step.
Qed.

(** Every operation issues at most one command. *)
Lemma dispatch_budget args application :
  command_budget 1 (dispatch X args application).
Proof.
  destruct (arg_test args) eqn:Htest.
  { apply (budget_weaken 0); [lia|]. by apply budget_quiet, dispatch_test_quiet. }
  unfold dispatch. rewrite Htest.
  destruct (arg_shell args); [apply budget_command|].
  destruct (arg_compilemessages args).
  { apply budget_work_in. intros _. apply budget_command. }
  destruct (arg_makemessages args).
  { apply budget_work_in. intros _.
    destruct (DJANGO_1_5 X); apply budget_command. }
  destruct (arg_makemigrations args).
  { unfold makemigrations. destruct (DJANGO_1_6 X); [|apply budget_command].
    apply (budget_bind 0 1); [|intros; apply budget_command].
    apply budget_quiet. by repeat emits_step. }
  apply (budget_weaken 0); [lia|]. apply budget_quiet.
  unfold static_analisys, generate_authors. by repeat emits_step.
Qed.

(** [core] issues the commands of its dispatch and no other. *)
Lemma core_budget (n : nat) args application :
  command_budget n (dispatch X args application) →
  command_budget n (core X args application).
Proof.
  intros Hd. unfold core.
  apply (budget_bind 0 n); [apply budget_quiet; by apply emits_emit|]. intros _.
  apply budget_with; [by apply emits_mkdtemp|intros; by apply emits_rmtree|].
  intros STATIC_ROOT.
  apply budget_with; [by apply emits_mkdtemp|intros; by apply emits_rmtree|].
  intros MEDIA_ROOT. rewrite core_block_dispatch.
  apply (budget_bind 0 n); [|done].
  apply budget_quiet. by apply emits_invoke.
Qed.

End CommandBudget.

(** X17.  One invocation issues at most one Django management command:
    among all the effects of [core], for every command line and every
    behaviour of the libraries, there is at most one [call_command]; and
    the test operation issues none. *)
Theorem core_issues_at_most_one_command {W} (X : Externals W) (args : Args)
    (application : string) (s : State W) :
  ∃ evs,
    trace (core X args application s).2 = trace s ++ evs
    ∧ (List.length (commands evs) ≤ 1)%nat
    ∧ (arg_test args = true → commands evs = []).
Proof.
  destruct (core_budget X 1 args application (dispatch_budget X args application) s)
    as (evs & Ht & Hlen).
  exists evs. split_and!; [done..|].
  intros Htest.
  destruct (core_budget X 0 args application
              (budget_quiet _ (dispatch_test_quiet X args application Htest)) s)
    as (evs' & Ht' & Hlen').
  rewrite Ht in Ht'. apply app_inv_head in Ht'. subst evs'.
  destruct (commands evs); [done|]. cbn [length] in Hlen'. lia.
Qed.

Lemma core_issues_at_most_one_command_witness :
  commands (trace (core (Demo.externals Demo.base)
                     (Demo.invocation "app" "test" []) "app" Demo.start).2) = [].
Proof.
  destruct (core_issues_at_most_one_command (Demo.externals Demo.base)
              (Demo.invocation "app" "test" []) "app" Demo.start)
    as (evs & Htrace & _ & Hnone).
  rewrite Htrace. cbn [trace Demo.start app]. apply Hnone. reflexivity.
Defined.
